(** * A shallow embedding of the WebSocket chat server (server.js)

    The model follows the first server in [server.js] (the one with the
    moderation features).  The process-wide mutable state (the [channels]
    object, the [users] Map, [bannedUsernames], [bannedIPs] and the set of
    open sockets [wss.clients]) is a record [world]; every handler is a
    computation in a small state-and-output monad: it reads and updates the
    world and emits the frames it sends, in order, as [Send c payload].

    Modelling conventions:
    - a connection ([ws]) is a [nat] handle; [clients] lists the sockets of
      [wss.clients] whose [readyState] is [OPEN], with the remote address
      captured when the connection was accepted, in insertion order;
    - [ws.terminate()] moves the socket out of [OPEN] at once (so later
      broadcasts skip it); its ['close'] handler runs later, as the separate
      event [Close];
    - time is milliseconds since the epoch ([Z]); one event reads one clock
      value [now] for every [new Date()] / [Date.now()] it evaluates;
    - [generateId()] is an opaque string supplied by the event;
    - JSON fields of an inbound frame are all present, with the types the
      handlers expect; the [type] field is a string. *)

From Stdlib Require Import String Ascii ZArith List Bool Lia.
Import ListNotations.
Open Scope string_scope.
Open Scope list_scope.
Open Scope Z_scope.

Local Infix "+++" := String.append (at level 60, right associativity).

(** ** Strings *)

(** [s.startsWith(p)] *)
Fixpoint startsWith (s p : string) : bool :=
  match p, s with
  | EmptyString, _ => true
  | String a p', String b s' => Ascii.eqb a b && startsWith s' p'
  | String _ _, EmptyString => false
  end.

(** [s.includes(p)] *)
Fixpoint includes (s p : string) : bool :=
  startsWith s p ||
  match s with
  | EmptyString => false
  | String _ s' => includes s' p
  end.

Fixpoint digits (fuel : nat) (n : Z) (acc : string) : string :=
  match fuel with
  | O => acc
  | S f =>
      let acc' := String (ascii_of_nat (48 + Z.to_nat (n mod 10))) acc in
      if n <? 10 then acc' else digits f (n / 10) acc'
  end.

(** [String(n)] for an integral number below [10^21] (template literals). *)
Definition Z_to_string (n : Z) : string :=
  if n <? 0 then "-" +++ digits 80 (- n) EmptyString
  else digits 80 n EmptyString.

(** ** Association lists with the JS [Map] discipline: [set] on an existing
    key replaces the value in place, a new key goes to the end. *)

Section Assoc.
Context {K V : Type} (eqk : K -> K -> bool).

Fixpoint aget (m : list (K * V)) (k : K) : option V :=
    match m with
    | [] => None
    | (k', v) :: r => if eqk k' k then Some v else aget r k
    end.

Fixpoint aset (m : list (K * V)) (k : K) (v : V) : list (K * V) :=
    match m with
    | [] => [(k, v)]
    | (k', v') :: r => if eqk k' k then (k, v) :: r else (k', v') :: aset r k v
    end.

Definition adel (m : list (K * V)) (k : K) : list (K * V) :=
    filter (fun kv => negb (eqk (fst kv) k)) m.
End Assoc.

(** ** Data model *)

Definition conn := nat.

(** An entry of [users]: [{ username, id, ip, isAdmin, muteExpires }]. *)
Record user := mkUser {
  username : string;
  uid : string;
  ip : string;
  isAdmin : bool;
  muteExpires : option Z
}.

(** The stored and broadcast [chatMessage]; [timestamp] is the clock value
    that [toISOString] renders. *)
Record chatMessage := mkChat {
  cm_id : string;
  author : string;
  cm_text : string;
  cm_channel : string;
  timestamp : Z;
  cm_isAdmin : bool
}.

(** An inbound JSON frame, with the fields the handlers destructure. *)
Record inbound := mkIn {
  mtype : string;
  m_username : string;
  m_isAdmin : bool;
  m_channel : string;
  m_text : string;
  m_isTyping : bool;
  m_targetUsername : string;
  m_duration : Z;
  m_banType : string
}.

(** Outbound frames (the [type] field selects the constructor). *)
Inductive payload :=
| PConnected (message : string)
| PError (message : string) (kick : bool)
| PJoined (name : string) (chans : list string)
| PUserList (us : list (string * bool * bool))
| PMessage (m : chatMessage)
| PHistory (channel : string) (messages : list chatMessage)
| PTyping (name channel : string) (isTyping : bool)
| PMuted (reason : string)
| PAdminConfirm (message : string)
| PInfo (message : string).

Record output := Send { dest : conn; data : payload }.

Record world := mkWorld {
  clients : list (conn * string);
  users : list (conn * user);
  channels : list (string * list chatMessage);
  bannedUsernames : list string;
  bannedIPs : list (string * Z)
}.

Definition set_clients (w : world) x :=
  mkWorld x (users w) (channels w) (bannedUsernames w) (bannedIPs w).
Definition set_users (w : world) x :=
  mkWorld (clients w) x (channels w) (bannedUsernames w) (bannedIPs w).
Definition set_channels (w : world) x :=
  mkWorld (clients w) (users w) x (bannedUsernames w) (bannedIPs w).
Definition set_bannedUsernames (w : world) x :=
  mkWorld (clients w) (users w) (channels w) x (bannedIPs w).
Definition set_bannedIPs (w : world) x :=
  mkWorld (clients w) (users w) (channels w) (bannedUsernames w) x.

Definition set_muteExpires (u : user) (e : option Z) : user :=
  mkUser (username u) (uid u) (ip u) (isAdmin u) e.

(** The initial in-memory storage. *)
Definition init_world : world :=
  mkWorld [] [] [("general", []); ("random", []); ("gaming", [])] [] [].

(** ** The state-and-output monad *)

Definition M (A : Type) := world -> A * world * list output.

Definition ret {A} (a : A) : M A := fun w => (a, w, []).
Definition bind {A B} (m : M A) (f : A -> M B) : M B :=
  fun w => let '(a, w1, o1) := m w in
           let '(b, w2, o2) := f a w1 in (b, w2, o1 ++ o2).
Definition get : M world := fun w => (w, w, []).
Definition modify (f : world -> world) : M unit := fun w => (tt, f w, []).
Definition send (c : conn) (p : payload) : M unit := fun w => (tt, w, [Send c p]).

Notation "x <- m ;; k" := (bind m (fun x => k))
  (at level 61, m at next level, right associativity).
Notation "m ;; k" := (bind m (fun _ => k)) (at level 61, right associativity).

(** ** Helpers *)

Definition users_get (w : world) (c : conn) : option user := aget Nat.eqb (users w) c.
(** [channels[ch]] on the own keys of the object; the members inherited from
    [Object.prototype] (see [inheritedKey]) are not modelled. *)
Definition channel_get (w : world) (ch : string) := aget String.eqb (channels w) ch.

(** [ws.terminate()]: the socket leaves [OPEN] at once. *)
Definition terminate (c : conn) : M unit :=
  modify (fun w => set_clients w (adel Nat.eqb (clients w) c)).

(** [broadcast(message, excludeWs)]: one frame to every open client except
    [excludeWs]. *)
Definition broadcast (p : payload) (excl : option conn) : M unit :=
  fun w =>
    (tt, w,
     map (fun ci => Send (fst ci) p)
         (filter (fun ci => match excl with
                            | Some x => negb (Nat.eqb (fst ci) x)
                            | None => true
                            end) (clients w))).

(** [u.muteExpires && u.muteExpires > new Date()] *)
Definition isMutedAt (now : Z) (u : user) : bool :=
  match muteExpires u with
  | Some e => now <? e
  | None => false
  end.

Definition broadcastUserList (now : Z) : M unit :=
  w <- get;;
  broadcast (PUserList (map (fun cu => (username (snd cu), isAdmin (snd cu),
                                        isMutedAt now (snd cu))) (users w))) None.

(** The first entry of [users] with this username ([===] on strings). *)
Fixpoint findEntry (us : list (conn * user)) (n : string) : option (conn * user) :=
  match us with
  | [] => None
  | (c, u) :: r => if String.eqb (username u) n then Some (c, u) else findEntry r n
  end.

Definition findUserByUsername (w : world) (n : string) : option user :=
  option_map snd (findEntry (users w) n).
Definition findSocketByUsername (w : world) (n : string) : option conn :=
  option_map fst (findEntry (users w) n).

Definition PERMANENT_MS : Z := 100 * 365 * 24 * 60 * 60 * 1000.

(** [calculateExpiry(d)] as the time value of the Date it returns; the
    statements that rely on it keep it within the Date range ([DATE_MAX]). *)
Definition calculateExpiry (now durationMinutes : Z) : Z :=
  if durationMinutes =? 0 then now + PERMANENT_MS
  else now + durationMinutes * 60 * 1000.

(** [Math.round(ms / 60000)]: rounds half up. *)
Definition roundMinutes (ms : Z) : Z := (ms + 30000) / 60000.

(** [channels[channel].push(m)], then [shift()] when the length exceeds 100. *)
Definition push_bounded (h : list chatMessage) (m : chatMessage) : list chatMessage :=
  let h' := h ++ [m] in
  if 100 <? Z.of_nat (length h') then tl h' else h'.

(** ** Handlers *)

(** [handleJoin(ws, message, ip)] *)
Definition handleJoin (now : Z) (gen : string) (c : conn) (m : inbound)
  (ipaddr : string) : M unit :=
  w <- get;;
  let n := m_username m in
  if existsb (String.eqb n) (bannedUsernames w) then
    send c (PError "This username is banned." true);;
    terminate c
  else
    match findUserByUsername w n with
    | Some _ =>
        send c (PError "This username is already taken." true);;
        terminate c
    | None =>
        modify (fun w => set_users w
                  (aset Nat.eqb (users w) c (mkUser n gen ipaddr (m_isAdmin m) None)));;
        send c (PJoined n (map fst (channels w)));;
        broadcastUserList now
    end.

(** The part of [handleChatMessage] after the mute check. *)
Definition storeAndBroadcast (now : Z) (gen : string) (u : user) (m : inbound) : M unit :=
  let ch := m_channel m in
  let chatMessage := mkChat gen (username u) (m_text m) ch now (isAdmin u) in
  w <- get;;
  match channel_get w ch with
  | Some h => modify (fun w => set_channels w
                        (aset String.eqb (channels w) ch (push_bounded h chatMessage)))
  | None => ret tt
  end;;
  broadcast (PMessage chatMessage) None.

Definition mutedReason (remaining : Z) : string :=
  "You are muted. Expires in " +++ Z_to_string remaining +++ " minutes.".

(** [handleChatMessage(ws, message)] *)
Definition handleChatMessage (now : Z) (gen : string) (c : conn) (m : inbound) : M unit :=
  w <- get;;
  match users_get w c with
  | None => ret tt
  | Some u =>
      match muteExpires u with
      | Some e =>
          if now <? e then
            send c (PError (mutedReason (roundMinutes (e - now))) false)
          else storeAndBroadcast now gen u m
      | None => storeAndBroadcast now gen u m
      end
  end.

(** [handleGetHistory(ws, message)] *)
Definition handleGetHistory (c : conn) (m : inbound) : M unit :=
  w <- get;;
  match channel_get w (m_channel m) with
  | Some h => send c (PHistory (m_channel m) h)
  | None => send c (PHistory (m_channel m) [])
  end.

(** [handleTyping(ws, message)] *)
Definition handleTyping (now : Z) (c : conn) (m : inbound) : M unit :=
  w <- get;;
  match users_get w c with
  | None => ret tt
  | Some u =>
      if isMutedAt now u then ret tt
      else broadcast (PTyping (username u) (m_channel m) (m_isTyping m)) (Some c)
  end.

Definition notFound (t : string) : payload :=
  PError ("User " +++ t +++ " not found.") false.

(** [handleAdminKick(ws, message)] *)
Definition handleAdminKick (now : Z) (c : conn) (m : inbound) : M unit :=
  let t := m_targetUsername m in
  w <- get;;
  match findSocketByUsername w t with
  | Some s =>
      send s (PError "You have been kicked by an admin." true);;
      terminate s;;
      send c (PAdminConfirm ("User " +++ t +++ " has been kicked."));;
      broadcastUserList now
  | None => send c (notFound t)
  end.

(** [handleAdminMute(ws, message)]; the found user object is mutated in
    place, i.e. the entry of [users] it belongs to. *)
Definition handleAdminMute (now : Z) (c : conn) (m : inbound) : M unit :=
  let t := m_targetUsername m in
  let d := m_duration m in
  w <- get;;
  match findEntry (users w) t with
  | Some (k, u) =>
      modify (fun w => set_users w
                (aset Nat.eqb (users w) k (set_muteExpires u (Some (calculateExpiry now d)))));;
      let reason := "You are muted for " +++
                    (if d =? 0 then "permanently" else Z_to_string d +++ " minutes") +++ "." in
      w' <- get;;
      match findSocketByUsername w' t with
      | Some s => send s (PMuted reason)
      | None => ret tt
      end;;
      send c (PAdminConfirm ("User " +++ t +++ " has been muted."));;
      broadcastUserList now
  | None => send c (notFound t)
  end.

(** The kick at the end of [handleAdminBan]. *)
Definition kickBanned (t : string) : M unit :=
  w <- get;;
  match findSocketByUsername w t with
  | Some s =>
      send s (PError "You have been banned from the server." true);;
      terminate s
  | None => ret tt
  end.

(** [bannedUsernames.add(n)] *)
Definition set_add (l : list string) (n : string) : list string :=
  if existsb (String.eqb n) l then l else l ++ [n].

(** [handleAdminBan(ws, message)] *)
Definition handleAdminBan (now : Z) (c : conn) (m : inbound) : M unit :=
  let t := m_targetUsername m in
  let d := m_duration m in
  w <- get;;
  match findUserByUsername w t with
  | None => send c (notFound t)
  | Some tu =>
      let expiryDate := calculateExpiry now d in
      if String.eqb (m_banType m) "username" then
        modify (fun w => set_bannedUsernames w (set_add (bannedUsernames w) t));;
        send c (PAdminConfirm ("Username " +++ t +++ " has been permanently banned."));;
        kickBanned t
      else if String.eqb (m_banType m) "ip" then
        modify (fun w => set_bannedIPs w (aset String.eqb (bannedIPs w) (ip tu) expiryDate));;
        let banLength := if d =? 0 then "permanently"
                         else "for " +++ Z_to_string d +++ " minutes" in
        send c (PAdminConfirm ("IP " +++ ip tu +++ " for " +++ t +++
                               " has been banned " +++ banLength +++ "."));;
        kickBanned t
      else
        send c (PError "Invalid ban type." false)
  end.

(** [handleAdminClear(ws, message)] *)
Definition handleAdminClear (c : conn) (m : inbound) : M unit :=
  let ch := m_channel m in
  w <- get;;
  match channel_get w ch with
  | Some _ =>
      modify (fun w => set_channels w (aset String.eqb (channels w) ch []));;
      broadcast (PHistory ch []) None;;
      send c (PAdminConfirm ("Channel #" +++ ch +++ " has been cleared."))
  | None => send c (PError ("Channel " +++ ch +++ " not found.") false)
  end.

(** [!user || !user.isAdmin] *)
Definition notAdmin (w : world) (c : conn) : bool :=
  match users_get w c with
  | Some u => negb (isAdmin u)
  | None => true
  end.

(** [handleMessage(ws, message, ip)] *)
Definition handleMessage (now : Z) (gen : string) (c : conn) (m : inbound)
  (ipaddr : string) : M unit :=
  w <- get;;
  if startsWith (mtype m) "admin_" && notAdmin w c then
    send c (PError "You are not authorized for this action." false)
  else
    let ty := mtype m in
    if String.eqb ty "join" then handleJoin now gen c m ipaddr
    else if String.eqb ty "message" then handleChatMessage now gen c m
    else if String.eqb ty "getHistory" then handleGetHistory c m
    else if String.eqb ty "typing" then handleTyping now c m
    else if String.eqb ty "admin_kick" then handleAdminKick now c m
    else if String.eqb ty "admin_mute" then handleAdminMute now c m
    else if String.eqb ty "admin_ban" then handleAdminBan now c m
    else if String.eqb ty "admin_clear" then handleAdminClear c m
    else ret tt.

(** The names of the recognised [type] values. *)
Definition recognised (ty : string) : bool :=
  existsb (String.eqb ty)
    ["join"; "message"; "getHistory"; "typing";
     "admin_kick"; "admin_mute"; "admin_ban"; "admin_clear"].

(** ** Connection events *)

(** Accepting a socket: it becomes an open client and is greeted. *)
Definition acceptSocket (c : conn) (ipaddr : string) : M unit :=
  modify (fun w => set_clients w (clients w ++ [(c, ipaddr)]));;
  send c (PConnected "Connected to server").

(** [wss.on('connection', ...)] *)
Definition onConnection (now : Z) (c : conn) (ipaddr : string) : M unit :=
  w <- get;;
  match aget String.eqb (bannedIPs w) ipaddr with
  | Some e =>
      if now <? e then
        (* the socket is terminated before it is ever OPEN to broadcasts *)
        send c (PError "You are banned from this server." true)
      else
        modify (fun w => set_bannedIPs w (adel String.eqb (bannedIPs w) ipaddr));;
        acceptSocket c ipaddr
  | None => acceptSocket c ipaddr
  end.

(** [ws.on('close', ...)] *)
Definition onClose (now : Z) (c : conn) : M unit :=
  modify (fun w => set_clients w (adel Nat.eqb (clients w) c));;
  w <- get;;
  match users_get w c with
  | Some _ =>
      modify (fun w => set_users w (adel Nat.eqb (users w) c));;
      broadcastUserList now
  | None => ret tt
  end.

(** The mute half of the periodic sweep: [users.forEach] over the keys. *)
Fixpoint sweepMutes (now : Z) (ks : list conn) : M unit :=
  match ks with
  | [] => ret tt
  | k :: ks' =>
      w <- get;;
      match users_get w k with
      | Some u =>
          match muteExpires u with
          | Some e =>
              if e <? now then
                modify (fun w => set_users w (aset Nat.eqb (users w) k (set_muteExpires u None)));;
                w' <- get;;
                match findSocketByUsername w' (username u) with
                | Some s => send s (PInfo "Your mute has expired.")
                | None => ret tt
                end
              else ret tt
          | None => ret tt
          end
      | None => ret tt
      end;;
      sweepMutes now ks'
  end.

(** The [setInterval] callback. *)
Definition sweep (now : Z) : M unit :=
  modify (fun w => set_bannedIPs w (filter (fun b => negb (snd b <? now)) (bannedIPs w)));;
  w <- get;;
  sweepMutes now (map fst (users w)).

(** The events the server reacts to. *)
Inductive event :=
| Connect (c : conn) (ipaddr : string)
| Recv (c : conn) (m : inbound) (gen : string)
| Close (c : conn)
| Tick.

(** A ['message'] frame on socket [c]; a socket that is no longer open
    delivers none. *)
Definition step (now : Z) (ev : event) : M unit :=
  match ev with
  | Connect c ipaddr => onConnection now c ipaddr
  | Recv c m gen =>
      w <- get;;
      match aget Nat.eqb (clients w) c with
      | Some ipaddr => handleMessage now gen c m ipaddr
      | None => ret tt
      end
  | Close c => onClose now c
  | Tick => sweep now
  end.

(** Timed event sequences. *)
Fixpoint run (evs : list (Z * event)) : M unit :=
  match evs with
  | [] => ret tt
  | (t, ev) :: r => step t ev;; run r
  end.

(** Well-formed events: a new connection has a fresh handle. *)
Definition event_ok (w : world) (ev : event) : Prop :=
  match ev with
  | Connect c _ => aget Nat.eqb (clients w) c = None /\ users_get w c = None
  | _ => True
  end.

(** The worlds the server can reach from its initial storage. *)
Inductive reachable : world -> Prop :=
| reach_init : reachable init_world
| reach_step w now ev w' outs :
    reachable w -> event_ok w ev -> step now ev w = (tt, w', outs) -> reachable w'.

(** The world and the frames after running a computation. *)
Definition after (mm : M unit) (w : world) : world := snd (fst (mm w)).
Definition emitted (mm : M unit) (w : world) : list output := snd (mm w).

(** The effect of one [sweepMutes] iteration on the world. *)
Definition clearExpired (now : Z) (w : world) (k : conn) : world :=
  match users_get w k with
  | Some u =>
      match muteExpires u with
      | Some e =>
          if e <? now then set_users w (aset Nat.eqb (users w) k (set_muteExpires u None))
          else w
      | None => w
      end
  | None => w
  end.

(** The usernames held by the sessions, in [users] order. *)
Definition names (us : list (conn * user)) : list string :=
  map (fun cu => username (snd cu)) us.

(** The structural invariant of reachable worlds: [wss.clients] is a set,
    [users] is a Map, and no two sessions share a username. *)
Definition wf (w : world) : Prop :=
  NoDup (map fst (clients w)) /\ NoDup (map fst (users w)) /\ NoDup (names (users w)).

(** ** Concrete inputs for the scenarios *)

Definition sample_msg (k : nat) : chatMessage :=
  mkChat (Z_to_string (Z.of_nat k)) "alice" "hi" "general" 0 false.

(** Inbound frames used in the scenarios. *)
Definition frame (ty : string) : inbound := mkIn ty "" false "" "" false "" 0 "".
Definition join_frame (n : string) (adm : bool) : inbound := mkIn "join" n adm "" "" false "" 0 "".
Definition chat_frame (ch text : string) : inbound := mkIn "message" "" false ch text false "" 0 "".
Definition admin_frame (ty target : string) (d : Z) (bt : string) : inbound :=
  mkIn ty "" false "" "" false target d bt.

Definition alice : user := mkUser "alice" "g1" "10.0.0.1" false None.
Definition root_admin : user := mkUser "root" "g2" "10.0.0.2" true None.

(** Alice is joined on socket 1. *)
Definition w_alice : world :=
  mkWorld [(1%nat, "10.0.0.1")] [(1%nat, alice)] (channels init_world) [] [].

(** Alice on socket 1 and the administrator root on socket 2. *)
Definition w_admin : world :=
  mkWorld [(1%nat, "10.0.0.1"); (2%nat, "10.0.0.2")] [(1%nat, alice); (2%nat, root_admin)]
          (channels init_world) [] [].

(** Alice is joined on socket 1; socket 3 is open but has not joined. *)
Definition w_pending : world :=
  mkWorld [(1%nat, "10.0.0.1"); (3%nat, "10.0.0.3")] [(1%nat, alice)] (channels init_world) [] [].

(** Alice's mute ended at 120000 and the ban of [10.0.0.9] at 100000; the
    sweep at 200000 clears both. *)
Definition w_expired : world :=
  mkWorld [(1%nat, "10.0.0.1")] [(1%nat, set_muteExpires alice (Some 120000))]
          (channels init_world) [] [("10.0.0.9", 100000)].

(** A decidable form of [event_ok], checked along a run. *)
Definition event_okb (w : world) (ev : event) : bool :=
  match ev with
  | Connect c _ =>
      match aget Nat.eqb (clients w) c, users_get w c with
      | None, None => true
      | _, _ => false
      end
  | _ => true
  end.

Fixpoint run_ok (w : world) (evs : list (Z * event)) : bool :=
  match evs with
  | [] => true
  | (t, ev) :: r => event_okb w ev && run_ok (after (step t ev) w) r
  end.

(** Socket 1 joins as alice, then sends a second [join] as alice. *)
Definition rejoin_run : list (Z * event) :=
  [(0, Connect 1%nat "10.0.0.1"); (0, Recv 1%nat (join_frame "alice" false) "g1");
   (0, Recv 1%nat (join_frame "alice" false) "g2")].

(** Socket 1 joins as alice and socket 2 connects. *)
Definition two_sockets_run : list (Z * event) :=
  [(0, Connect 1%nat "10.0.0.1"); (0, Recv 1%nat (join_frame "alice" false) "g1");
   (0, Connect 2%nat "10.0.0.2")].

(** An [admin_ban] frame with the [ip] ban type. *)
Definition ip_ban_event (ev : event) : bool :=
  match ev with
  | Recv _ m _ => String.eqb (mtype m) "admin_ban" && String.eqb (m_banType m) "ip"
  | _ => false
  end.

(** The ban tables are untouched. *)
Definition same_bans (w w' : world) : Prop :=
  bannedUsernames w' = bannedUsernames w /\ bannedIPs w' = bannedIPs w.

(** Every event of a timed run happens no later than [t]. *)
Definition all_before (evs : list (Z * event)) (t : Z) : bool :=
  forallb (fun te => fst te <=? t) evs.

(** ** Where the model and JavaScript part ways

    [channels] is a plain object, so [channels[ch]] also finds the members
    every object inherits from [Object.prototype]; [channel_get] models the
    own keys only.  The statements about unknown channels therefore exclude
    the inherited names. *)
Definition objectProtoKeys : list string :=
  ["constructor"; "__defineGetter__"; "__defineSetter__"; "hasOwnProperty";
   "__lookupGetter__"; "__lookupSetter__"; "isPrototypeOf"; "propertyIsEnumerable";
   "toString"; "valueOf"; "__proto__"; "toLocaleString"].

Definition inheritedKey (ch : string) : bool := existsb (String.eqb ch) objectProtoKeys.

(** A JavaScript time value is valid within 8.64e15 ms of the epoch; [calculateExpiry]
    and the clock are modelled as unbounded integers, which agree with
    [new Date(...)] inside that range. *)
Definition DATE_MAX : Z := 8640000000000000.

(** [new Date(t)]: [None] stands for the Invalid Date (time value NaN). *)
Definition newDate (t : Z) : option Z :=
  if Z.abs t <=? DATE_MAX then Some t else None.

(** [a > b] on two Dates: a comparison with NaN is false. *)
Definition dateGt (a b : option Z) : bool :=
  match a, b with
  | Some x, Some y => y <? x
  | _, _ => false
  end.

(** ** Generic facts about the monad *)

Lemma bind_unfold {A B} (m : M A) (f : A -> M B) w :
  bind m f w = let '(a, w1, o1) := m w in
               let '(b, w2, o2) := f a w1 in (b, w2, o1 ++ o2).
Proof. reflexivity. Qed.

Ltac mstep := cbv [bind ret get modify send] in *.

(** ** The channel store *)

Lemma push_bounded_spec (h : list chatMessage) m :
  (length h <= 100)%nat ->
  push_bounded h m = (if (length h <? 100)%nat then h else tl h) ++ [m].
Proof.
  intros Hl. unfold push_bounded. rewrite length_app. simpl.
  destruct (Nat.ltb_spec (length h) 100).
  - replace (100 <? Z.of_nat (length h + 1)) with false by (symmetry; apply Z.ltb_ge; lia).
    reflexivity.
  - replace (100 <? Z.of_nat (length h + 1)) with true by (symmetry; apply Z.ltb_lt; lia).
    destruct h as [|x h']; simpl in *; [lia | reflexivity].
Qed.

Lemma push_bounded_length (h : list chatMessage) m :
  (length h <= 100)%nat -> (length (push_bounded h m) <= 100)%nat.
Proof.
  intros Hl. rewrite push_bounded_spec by exact Hl.
  destruct (Nat.ltb_spec (length h) 100); rewrite length_app; simpl;
    [lia | destruct h; simpl in *; lia].
Qed.

Lemma fold_push_bounded (msgs h : list chatMessage) :
  (length h <= 100)%nat ->
  (length (fold_left push_bounded msgs h) <= 100)%nat /\
  fold_left push_bounded msgs h = skipn (length (h ++ msgs) - 100) (h ++ msgs).
Proof.
  revert h. induction msgs as [|m ms IH]; intros h Hl.
  - simpl. rewrite app_nil_r. split; [exact Hl|].
    replace (length h - 100)%nat with 0%nat by lia. reflexivity.
  - simpl. destruct (IH (push_bounded h m) (push_bounded_length h m Hl)) as [IH1 IH2].
    split; [exact IH1|]. rewrite IH2, push_bounded_spec by exact Hl.
    destruct (Nat.ltb_spec (length h) 100).
    + rewrite <- app_assoc. reflexivity.
    + destruct h as [|x t]; simpl in *; [lia|].
      rewrite <- app_assoc. simpl. rewrite !length_app. simpl.
      match goal with
      | |- skipn ?a _ = skipn ?b _ =>
          replace a with (length ms) by lia; replace b with (S (length ms)) by lia
      end.
      reflexivity.
Qed.

Lemma storeAndBroadcast_channel now gen u m w h :
  channel_get w (m_channel m) = Some h ->
  let '(_, w', _) := storeAndBroadcast now gen u m w in
  channel_get w' (m_channel m) =
    Some (push_bounded h (mkChat gen (username u) (m_text m) (m_channel m) now (isAdmin u))).
Proof.
  intros Hc. unfold storeAndBroadcast, broadcast. mstep. rewrite Hc.
  unfold channel_get in *; simpl.
  generalize (channels w) as cs. induction cs as [|[k v] r IHr]; simpl.
  - rewrite String.eqb_refl. reflexivity.
  - destruct (String.eqb k (m_channel m)) eqn:E; simpl.
    + rewrite String.eqb_refl. reflexivity.
    + rewrite E. exact IHr.
Qed.

(** ** Association lists *)

Lemma aget_aset_nat {V} (m : list (conn * V)) k k' v :
  aget Nat.eqb (aset Nat.eqb m k' v) k = if Nat.eqb k' k then Some v else aget Nat.eqb m k.
Proof.
  induction m as [|[k0 v0] r IH]; simpl.
  - destruct (Nat.eqb k' k); reflexivity.
  - destruct (Nat.eqb k0 k') eqn:E0; simpl.
    + apply Nat.eqb_eq in E0. subst k0. destruct (Nat.eqb k' k); reflexivity.
    + destruct (Nat.eqb k0 k) eqn:E1; [|exact IH].
      apply Nat.eqb_eq in E1. subst k0. rewrite Nat.eqb_sym, E0. reflexivity.
Qed.

Lemma aget_in_keys {V} (m : list (conn * V)) k v :
  aget Nat.eqb m k = Some v -> In k (map fst m).
Proof.
  induction m as [|[k0 v0] r IH]; simpl; [discriminate|].
  destruct (Nat.eqb k0 k) eqn:E; [left; apply Nat.eqb_eq; exact E|].
  intros H; right; exact (IH H).
Qed.

Section AssocFacts.
Context {K V : Type} (eqk : K -> K -> bool).
Hypothesis eqk_spec : forall a b, eqk a b = true <-> a = b.

Lemma eqk_refl a : eqk a a = true.
  Proof. apply eqk_spec. reflexivity. Qed.

Lemma aget_aset_gen (m : list (K * V)) k k' v :
    aget eqk (aset eqk m k' v) k = if eqk k' k then Some v else aget eqk m k.
  Proof.
    induction m as [|[k0 v0] r IH]; simpl; [destruct (eqk k' k); reflexivity|].
    destruct (eqk k0 k') eqn:E0; simpl.
    - apply eqk_spec in E0. subst k0. destruct (eqk k' k); reflexivity.
    - destruct (eqk k0 k) eqn:E1; [|exact IH].
      apply eqk_spec in E1. subst k0. destruct (eqk k' k) eqn:E2; [|reflexivity].
      apply eqk_spec in E2. subst k'. rewrite eqk_refl in E0. discriminate.
  Qed.

Lemma aget_adel_gen (m : list (K * V)) k k' :
    aget eqk (adel eqk m k) k' = if eqk k k' then None else aget eqk m k'.
  Proof.
    induction m as [|[k0 v0] r IH]; simpl; [destruct (eqk k k'); reflexivity|].
    destruct (eqk k0 k) eqn:E; simpl.
    - apply eqk_spec in E. subst k0. rewrite IH. destruct (eqk k k'); reflexivity.
    - rewrite IH. destruct (eqk k0 k') eqn:E'; [|reflexivity].
      apply eqk_spec in E'. subst k'.
      destruct (eqk k k0) eqn:E2; [|reflexivity].
      apply eqk_spec in E2. subst k. rewrite eqk_refl in E. discriminate.
  Qed.

Lemma NoDup_keys_aset_gen (m : list (K * V)) k v :
    NoDup (map fst m) -> NoDup (map fst (aset eqk m k v)).
  Proof.
    induction m as [|[k0 v0] r IH]; simpl; intros Hd.
    - repeat constructor. simpl; tauto.
    - inversion Hd as [|? ? Hn Hd0]; subst.
      destruct (eqk k0 k) eqn:E; simpl.
      + apply eqk_spec in E. subst k0. constructor; assumption.
      + constructor; [|exact (IH Hd0)].
        intros Hin. apply Hn.
        assert (Hs : forall x, In x (map fst (aset eqk r k v)) -> x = k \/ In x (map fst r)).
        { clear. induction r as [|[k1 v1] r IH]; simpl; [intros x [<-|[]]; left; reflexivity|].
          destruct (eqk k1 k) eqn:E1; simpl; intros x [Hx|Hx].
          - left; symmetry; exact Hx.
          - right; right; exact Hx.
          - right; left; exact Hx.
          - destruct (IH x Hx); [left|right; right]; assumption. }
        destruct (Hs k0 Hin) as [Hk|Hk]; [subst k0; rewrite eqk_refl in E; discriminate|exact Hk].
  Qed.

Lemma aget_filter_gen (p : K * V -> bool) (m : list (K * V)) k e :
    NoDup (map fst m) -> aget eqk m k = Some e ->
    aget eqk (filter p m) k = if p (k, e) then Some e else None.
  Proof.
    induction m as [|[k0 v0] r IH]; simpl; [discriminate|].
    intros Hd. inversion Hd as [|? ? Hn Hd0]; subst.
    destruct (eqk k0 k) eqn:E.
    - intros H. injection H as <-. apply eqk_spec in E. subst k0.
      destruct (p (k, v0)); simpl; [rewrite eqk_refl; reflexivity|].
      clear -Hn eqk_spec. induction r as [|[k1 v1] r IH]; simpl; [reflexivity|].
      destruct (p (k1, v1)); simpl.
      + destruct (eqk k1 k) eqn:E1; [apply eqk_spec in E1; subst; exfalso; apply Hn; left; reflexivity|].
        apply IH. intros H; apply Hn; right; exact H.
      + apply IH. intros H; apply Hn; right; exact H.
    - intros H. destruct (p (k0, v0)); simpl; [rewrite E|]; exact (IH Hd0 H).
  Qed.

Lemma aget_filter_none (p : K * V -> bool) (m : list (K * V)) k :
    aget eqk m k = None -> aget eqk (filter p m) k = None.
  Proof.
    induction m as [|[k0 v0] r IH]; simpl; [reflexivity|].
    destruct (eqk k0 k) eqn:E; [discriminate|].
    intros H. destruct (p (k0, v0)); simpl; [rewrite E|]; exact (IH H).
  Qed.
End AssocFacts.

Lemma string_eqb_spec a b : String.eqb a b = true <-> a = b.
Proof. apply String.eqb_eq. Qed.

(** ** The chat-message handler *)

Lemma chat_rejected now gen c m w u e :
  users_get w c = Some u -> muteExpires u = Some e -> now < e ->
  handleChatMessage now gen c m w =
    (tt, w, [Send c (PError (mutedReason (roundMinutes (e - now))) false)]).
Proof.
  intros Hu He Hlt. unfold handleChatMessage. mstep. rewrite Hu, He.
  replace (now <? e) with true by (symmetry; apply Z.ltb_lt; exact Hlt). reflexivity.
Qed.

Lemma chat_accepted now gen c m w u :
  users_get w c = Some u -> isMutedAt now u = false ->
  handleChatMessage now gen c m w = storeAndBroadcast now gen u m w.
Proof.
  intros Hu Hm. unfold isMutedAt in Hm. unfold handleChatMessage. mstep. rewrite Hu.
  destruct (muteExpires u) as [e|].
  - rewrite Hm. destruct (storeAndBroadcast now gen u m w) as [[[] w2] o2]. reflexivity.
  - destruct (storeAndBroadcast now gen u m w) as [[[] w2] o2]. reflexivity.
Qed.

(** ** Claims *)

(** C3: the history of a channel never exceeds 100 entries.  A post appends
    and, when the channel already holds 100 entries, evicts exactly the single
    oldest one; after any sequence of posts to a channel holding at most 100
    entries, the history is exactly the last 100 entries of all posts in
    arrival order.  An accepted chat message on an existing channel performs
    exactly that post. *)
Theorem history_bounded_fifo (h msgs : list chatMessage) :
  (length h <= 100)%nat ->
  (forall m, push_bounded h m = (if (length h <? 100)%nat then h else tl h) ++ [m]) /\
  (length (fold_left push_bounded msgs h) <= 100)%nat /\
  fold_left push_bounded msgs h = skipn (length (h ++ msgs) - 100) (h ++ msgs) /\
  (forall now gen u m w,
     channel_get w (m_channel m) = Some h ->
     let '(_, w', _) := storeAndBroadcast now gen u m w in
     channel_get w' (m_channel m) =
       Some (push_bounded h (mkChat gen (username u) (m_text m) (m_channel m) now (isAdmin u)))).
Proof.
  intros Hl. destruct (fold_push_bounded msgs h Hl) as [H1 H2].
  split; [intro m; exact (push_bounded_spec h m Hl)|].
  split; [exact H1|]. split; [exact H2|].
  intros now gen u m w Hc. exact (storeAndBroadcast_channel now gen u m w h Hc).
Qed.

Lemma history_bounded_fifo_witness :
  (length (@nil chatMessage) <= 100)%nat /\
  let msgs := map sample_msg (seq 1 101) in
  skipn (length ([] ++ msgs) - 100) ([] ++ msgs) = map sample_msg (seq 2 100) /\
  fold_left push_bounded msgs [] = skipn (length ([] ++ msgs) - 100) ([] ++ msgs).
Proof.
  split; [simpl; lia|]. cbv zeta. split; [vm_compute; reflexivity|].
  apply (history_bounded_fifo [] (map sample_msg (seq 1 101))). simpl; lia.
Defined.

(** C6: for a joined session whose mute expiry [e] lies in the future at
    [now], a chat message is rejected with the single unicast error naming the
    rounded remaining minutes and nothing else changes; once the expiry has
    passed ([e <= now], swept or not) or has been cleared by the sweep, the
    message takes the accepting path. *)
Theorem mute_gate now gen c m w u :
  users_get w c = Some u ->
  (forall e, muteExpires u = Some e -> now < e ->
     handleChatMessage now gen c m w =
       (tt, w, [Send c (PError (mutedReason (roundMinutes (e - now))) false)])) /\
  ((forall e, muteExpires u = Some e -> e <= now) ->
     handleChatMessage now gen c m w = storeAndBroadcast now gen u m w).
Proof.
  intros Hu. split.
  - intros e He Hlt. exact (chat_rejected now gen c m w u e Hu He Hlt).
  - intros Hpast. apply chat_accepted; [exact Hu|]. unfold isMutedAt.
    destruct (muteExpires u) as [e|] eqn:He; [|reflexivity].
    apply Z.ltb_ge, Hpast. reflexivity.
Qed.

Lemma mute_gate_witness :
  users_get (set_users w_alice [(1%nat, set_muteExpires alice (Some 120000))]) 1%nat
    = Some (set_muteExpires alice (Some 120000)) /\
  handleChatMessage 0 "g" 1%nat (chat_frame "general" "hi")
    (set_users w_alice [(1%nat, set_muteExpires alice (Some 120000))]) =
  (tt, set_users w_alice [(1%nat, set_muteExpires alice (Some 120000))],
   [Send 1%nat (PError (mutedReason (roundMinutes (120000 - 0))) false)]) /\
  handleChatMessage 120000 "g" 1%nat (chat_frame "general" "hi")
    (set_users w_alice [(1%nat, set_muteExpires alice (Some 120000))]) =
  storeAndBroadcast 120000 "g" (set_muteExpires alice (Some 120000)) (chat_frame "general" "hi")
    (set_users w_alice [(1%nat, set_muteExpires alice (Some 120000))]).
Proof.
  split; [reflexivity|]. split.
  - apply (mute_gate 0 "g" 1%nat (chat_frame "general" "hi")
             (set_users w_alice [(1%nat, set_muteExpires alice (Some 120000))])
             (set_muteExpires alice (Some 120000)) eq_refl); [reflexivity | lia].
  - apply (mute_gate 120000 "g" 1%nat (chat_frame "general" "hi")
             (set_users w_alice [(1%nat, set_muteExpires alice (Some 120000))])
             (set_muteExpires alice (Some 120000)) eq_refl).
    intros e He. simpl in He. injection He as <-. lia.
Defined.



Lemma admin_prefix_recognised ty :
  String.eqb ty "admin_kick" || String.eqb ty "admin_mute" ||
  String.eqb ty "admin_ban" || String.eqb ty "admin_clear" = true ->
  startsWith ty "admin_" = true.
Proof.
  intros H. repeat (apply orb_true_iff in H; destruct H as [H|H]);
    apply String.eqb_eq in H; subst; reflexivity.
Qed.




(** C8 (as stated): an event of an unrecognised type never gets a reply.
    Refuted: the unknown type [admin_foo] from Alice, who is not an
    administrator, is answered with an authorisation error. *)
Lemma unknown_admin_type_rejected :
  recognised "admin_foo" = false /\
  handleMessage 0 "g" 1%nat (frame "admin_foo") "10.0.0.1" w_alice =
    (tt, w_alice, [Send 1%nat (PError "You are not authorized for this action." false)]).
Proof. vm_compute. split; reflexivity. Qed.

(** C8 (amended): an event whose (string) type is not one of the eight
    recognised types never changes any state.  It produces no frame, except
    that a type starting with [admin_] sent by a connection without an
    administrator session gets the single unauthorised error frame. *)
Theorem unknown_type_ignored now gen c m ipaddr w :
  recognised (mtype m) = false ->
  handleMessage now gen c m ipaddr w =
    (tt, w,
     if startsWith (mtype m) "admin_" && notAdmin w c then
       [Send c (PError "You are not authorized for this action." false)]
     else []).
Proof.
  intros Hr. unfold recognised in Hr. simpl in Hr.
  repeat match type of Hr with
         | _ || _ = false => apply orb_false_iff in Hr; destruct Hr as [? Hr]
         end.
  unfold handleMessage. mstep.
  destruct (startsWith (mtype m) "admin_" && notAdmin w c); [reflexivity|].
  repeat match goal with
         | H : String.eqb (mtype m) _ = false |- _ => rewrite H; clear H
         end.
  reflexivity.
Qed.

Lemma unknown_type_ignored_witness :
  recognised "hello" = false /\
  handleMessage 0 "g" 1%nat (frame "hello") "10.0.0.1" w_alice =
    (tt, w_alice,
     if startsWith "hello" "admin_" && notAdmin w_alice 1%nat then
       [Send 1%nat (PError "You are not authorized for this action." false)]
     else []).
Proof.
  split; [reflexivity|].
  apply (unknown_type_ignored 0 "g" 1%nat (frame "hello") "10.0.0.1" w_alice). reflexivity.
Defined.

(** ** Mutes and the sweep *)

Lemma handleAdminMute_world now c m w k u :
  findEntry (users w) (m_targetUsername m) = Some (k, u) ->
  after (handleAdminMute now c m) w =
    set_users w (aset Nat.eqb (users w) k
                   (set_muteExpires u (Some (calculateExpiry now (m_duration m))))).
Proof.
  intros Hf. unfold after, handleAdminMute, broadcastUserList, broadcast. mstep. rewrite Hf.
  destruct (findSocketByUsername _ _); reflexivity.
Qed.

Lemma sweepMutes_world now ks : forall w,
  after (sweepMutes now ks) w = fold_left (clearExpired now) ks w.
Proof.
  unfold after. induction ks as [|k ks IH]; intros w; [reflexivity|].
  simpl sweepMutes. simpl fold_left. unfold clearExpired at 2. mstep.
  destruct (users_get w k) as [u|];
    [destruct (muteExpires u) as [e|]; [destruct (e <? now)|]|];
    try (destruct (findSocketByUsername _ _));
    match goal with
    | |- context [sweepMutes now ks ?W] =>
        specialize (IH W); destruct (sweepMutes now ks W) as [[[] w2] o2]; simpl in *; exact IH
    end.
Qed.

Lemma clearExpired_keeps now ks : forall w k u,
  users_get w k = Some u -> (forall e, muteExpires u = Some e -> now <= e) ->
  users_get (fold_left (clearExpired now) ks w) k = Some u.
Proof.
  induction ks as [|k' ks IH]; intros w k u Hu He; [exact Hu|].
  simpl. apply IH; [|exact He]. unfold clearExpired.
  destruct (users_get w k') as [u'|] eqn:Hu'; [|exact Hu].
  destruct (muteExpires u') as [e'|] eqn:He'; [|exact Hu].
  destruct (e' <? now) eqn:Elt; [|exact Hu].
  unfold users_get in *; simpl. rewrite aget_aset_nat.
  destruct (Nat.eqb k' k) eqn:Ek; [|exact Hu].
  apply Nat.eqb_eq in Ek. subst k'. rewrite Hu in Hu'. injection Hu' as <-.
  specialize (He e' He'). apply Z.ltb_lt in Elt. lia.
Qed.

Lemma clearExpired_clears now ks : forall w k u e,
  users_get w k = Some u -> muteExpires u = Some e -> e < now -> In k ks ->
  users_get (fold_left (clearExpired now) ks w) k = Some (set_muteExpires u None).
Proof.
  induction ks as [|k' ks IH]; intros w k u e Hu He Hlt Hin; [destruct Hin|].
  simpl. destruct (Nat.eqb k' k) eqn:Ek.
  - apply Nat.eqb_eq in Ek. subst k'. apply clearExpired_keeps; [|discriminate].
    unfold clearExpired. rewrite Hu, He.
    replace (e <? now) with true by (symmetry; apply Z.ltb_lt; exact Hlt).
    unfold users_get; simpl. rewrite aget_aset_nat, Nat.eqb_refl. reflexivity.
  - destruct Hin as [Hk|Hin]; [subst k'; rewrite Nat.eqb_refl in Ek; discriminate|].
    apply (IH _ k u e); [|exact He|exact Hlt|exact Hin].
    unfold clearExpired.
    destruct (users_get w k') as [u'|] eqn:Hu'; [|exact Hu].
    destruct (muteExpires u') as [e'|]; [|exact Hu].
    destruct (e' <? now); [|exact Hu].
    unfold users_get in *; simpl. rewrite aget_aset_nat, Ek. exact Hu.
Qed.

Lemma sweep_world now w :
  after (sweep now) w =
    fold_left (clearExpired now) (map fst (users w))
      (set_bannedIPs w (filter (fun b => negb (snd b <? now)) (bannedIPs w))).
Proof.
  rewrite <- sweepMutes_world. unfold after, sweep. mstep. simpl.
  destruct (sweepMutes _ _ _) as [[[] w2] o2]. reflexivity.
Qed.

Lemma handleMessage_admin_mute now gen c m ipaddr w a :
  users_get w c = Some a -> isAdmin a = true -> mtype m = "admin_mute" ->
  after (handleMessage now gen c m ipaddr) w = after (handleAdminMute now c m) w.
Proof.
  intros Hc Ha Hty. unfold after, handleMessage, notAdmin. mstep.
  rewrite Hc, Ha, Hty. simpl.
  destruct (handleAdminMute now c m w) as [[[] w2] o2]. reflexivity.
Qed.

Lemma handleMessage_chat now gen c m ipaddr w :
  mtype m = "message" ->
  handleMessage now gen c m ipaddr w = handleChatMessage now gen c m w.
Proof.
  intros Hty. unfold handleMessage. mstep. rewrite Hty. simpl.
  destruct (handleChatMessage now gen c m w) as [[[] w2] o2]. reflexivity.
Qed.

(** C5 (as stated): after a mute of duration 0 the target's next message is
    rejected with a reason describing the mute as permanent, and the sweep
    never clears it.  Refuted: root mutes Alice for 0 minutes at time 0; her
    next message is refused with "Expires in 52560000 minutes", which does
    not say "permanent", and the sweep clears the mute once 100 years have
    passed. *)
Lemma zero_mute_reason_not_permanent :
  let w1 := after (handleMessage 0 "g" 2%nat (admin_frame "admin_mute" "alice" 0 "") "10.0.0.2")
                  w_admin in
  emitted (handleMessage 0 "g3" 1%nat (chat_frame "general" "hi") "10.0.0.1") w1 =
    [Send 1%nat (PError "You are muted. Expires in 52560000 minutes." false)] /\
  includes "You are muted. Expires in 52560000 minutes." "permanent" = false /\
  users_get (after (sweep (PERMANENT_MS + 60000)) w1) 1%nat = Some (set_muteExpires alice None).
Proof. vm_compute. repeat split. Qed.

(** C5 (amended): when an administrator session mutes a target for duration
    0 at time [t0], the target's mute expiry becomes [t0] plus 100 years
    ([PERMANENT_MS]); a message from the target at any time before that is
    rejected with the single ordinary reason "You are muted. Expires in R
    minutes." ([R] the rounded remaining minutes, not a permanence wording);
    a sweep at any time up to the expiry leaves the mute in place, and a
    sweep after it clears the mute. *)
Theorem zero_mute_hundred_years t0 gen c m ipaddr w a k tu :
  users_get w c = Some a -> isAdmin a = true ->
  mtype m = "admin_mute" -> m_duration m = 0 ->
  findEntry (users w) (m_targetUsername m) = Some (k, tu) ->
  let w1 := after (handleMessage t0 gen c m ipaddr) w in
  let e := t0 + PERMANENT_MS in
  users_get w1 k = Some (set_muteExpires tu (Some e)) /\
  (forall t gen' m' ip', t < e -> mtype m' = "message" ->
     handleMessage t gen' k m' ip' w1 =
       (tt, w1, [Send k (PError (mutedReason (roundMinutes (e - t))) false)])) /\
  (forall t, t <= e -> users_get (after (sweep t) w1) k = Some (set_muteExpires tu (Some e))) /\
  (forall t, e < t -> users_get (after (sweep t) w1) k = Some (set_muteExpires tu None)).
Proof.
  intros Hc Ha Hty Hd Hf w1 e.
  assert (Hw1 : users_get w1 k = Some (set_muteExpires tu (Some e))).
  { unfold w1. rewrite (handleMessage_admin_mute t0 gen c m ipaddr w a Hc Ha Hty).
    rewrite (handleAdminMute_world t0 c m w k tu Hf).
    unfold users_get; simpl. rewrite aget_aset_nat, Nat.eqb_refl, Hd. reflexivity. }
  split; [exact Hw1|]. split; [|split].
  - intros t gen' m' ip' Ht Hty'. rewrite handleMessage_chat by exact Hty'.
    exact (chat_rejected t gen' k m' w1 _ e Hw1 eq_refl Ht).
  - intros t Ht. rewrite sweep_world. apply clearExpired_keeps; [exact Hw1|].
    intros e' He'. simpl in He'. injection He' as <-. exact Ht.
  - intros t Ht. rewrite sweep_world.
    change (set_muteExpires tu None) with (set_muteExpires (set_muteExpires tu (Some e)) None).
    apply (clearExpired_clears t _ _ k _ e); [exact Hw1|reflexivity|exact Ht|].
    exact (aget_in_keys _ _ _ Hw1).
Qed.

Lemma zero_mute_hundred_years_witness :
  users_get w_admin 2%nat = Some root_admin /\ isAdmin root_admin = true /\
  mtype (admin_frame "admin_mute" "alice" 0 "") = "admin_mute" /\
  m_duration (admin_frame "admin_mute" "alice" 0 "") = 0 /\
  findEntry (users w_admin) "alice" = Some (1%nat, alice) /\
  users_get (after (handleMessage 0 "g" 2%nat (admin_frame "admin_mute" "alice" 0 "") "10.0.0.2")
                   w_admin) 1%nat
    = Some (set_muteExpires alice (Some (0 + PERMANENT_MS))).
Proof.
  do 5 (split; [reflexivity|]).
  apply (zero_mute_hundred_years 0 "g" 2%nat (admin_frame "admin_mute" "alice" 0 "") "10.0.0.2"
           w_admin root_admin 1%nat alice); reflexivity.
Defined.

(** ** The structural invariant *)

Lemma NoDup_map_filter {A B} (f : A -> B) (p : A -> bool) l :
  NoDup (map f l) -> NoDup (map f (filter p l)).
Proof.
  induction l as [|x l IH]; simpl; intros H; [constructor|].
  inversion H as [|? ? Hn Hd]; subst.
  destruct (p x); simpl; [|exact (IH Hd)].
  constructor; [|exact (IH Hd)].
  intros Hin. apply Hn. apply in_map_iff in Hin. destruct Hin as [y [Hy Hiny]].
  apply filter_In in Hiny. apply in_map_iff. exists y. tauto.
Qed.

Lemma keys_aset {V} (m : list (conn * V)) k v :
  map fst (aset Nat.eqb m k v) =
    if existsb (fun kv => Nat.eqb (fst kv) k) m then map fst m else map fst m ++ [k].
Proof.
  induction m as [|[k0 v0] r IH]; simpl; [reflexivity|].
  destruct (Nat.eqb k0 k) eqn:E; simpl.
  - apply Nat.eqb_eq in E. subst. reflexivity.
  - rewrite IH. destruct (existsb (fun kv => Nat.eqb (fst kv) k) r); reflexivity.
Qed.

Lemma existsb_key_false {V} (m : list (conn * V)) k :
  existsb (fun kv => Nat.eqb (fst kv) k) m = false -> ~ In k (map fst m).
Proof.
  intros H Hin. apply in_map_iff in Hin. destruct Hin as [[k' v] [Hk Hin]]. simpl in Hk. subst k'.
  assert (existsb (fun kv => Nat.eqb (fst kv) k) m = true)
    by (apply existsb_exists; exists (k, v); simpl; rewrite Nat.eqb_refl; auto).
  congruence.
Qed.

Lemma NoDup_keys_aset {V} (m : list (conn * V)) k v :
  NoDup (map fst m) -> NoDup (map fst (aset Nat.eqb m k v)).
Proof.
  intros H. rewrite keys_aset.
  destruct (existsb (fun kv => Nat.eqb (fst kv) k) m) eqn:E; [exact H|].
  apply NoDup_app; [exact H|repeat constructor; simpl; tauto|].
  intros x Hx [Hk|[]]. subst x. exact (existsb_key_false m k E Hx).
Qed.

(** Replacing a session by one with the same username keeps the names. *)
Lemma names_aset_same (m : list (conn * user)) k u v :
  aget Nat.eqb m k = Some u -> username v = username u ->
  names (aset Nat.eqb m k v) = names m.
Proof.
  unfold names. induction m as [|[k0 u0] r IH]; simpl; [discriminate|].
  destruct (Nat.eqb k0 k) eqn:E; simpl.
  - intros Hu Hv. injection Hu as <-. rewrite Hv. reflexivity.
  - intros Hu Hv. rewrite (IH Hu Hv). reflexivity.
Qed.

(** Storing a session under a fresh username keeps the names distinct. *)
Lemma names_aset_fresh (m : list (conn * user)) k v :
  NoDup (names m) -> ~ In (username v) (names m) -> NoDup (names (aset Nat.eqb m k v)).
Proof.
  unfold names. induction m as [|[k0 u0] r IH]; simpl; intros Hd Hn.
  - repeat constructor. simpl; tauto.
  - inversion Hd as [|? ? Hn0 Hd0]; subst.
    destruct (Nat.eqb k0 k); simpl; constructor.
    + intros Hin. apply Hn. right. exact Hin.
    + exact Hd0.
    + intros Hin.
      assert (Hs : forall x, In x (map (fun cu => username (snd cu)) (aset Nat.eqb r k v)) ->
                             x = username v \/ In x (map (fun cu => username (snd cu)) r)).
      { clear. induction r as [|[k1 u1] r IH]; simpl; [intros x [<-|[]]; left; reflexivity|].
        destruct (Nat.eqb k1 k); simpl; intros x [<-|Hx].
        - left; reflexivity.
        - right; right; exact Hx.
        - right; left; reflexivity.
        - destruct (IH x Hx); [left|right; right]; assumption. }
      destruct (Hs _ Hin) as [E|E]; [apply Hn; left; exact E | exact (Hn0 E)].
    + apply IH; [exact Hd0|]. intros Hin. apply Hn. right. exact Hin.
Qed.

Lemma findEntry_none_names us n :
  findEntry us n = None -> ~ In n (names us).
Proof.
  unfold names. induction us as [|[k u] r IH]; simpl; [tauto|].
  destruct (String.eqb (username u) n) eqn:E; [discriminate|].
  intros Hf [Hn|Hin]; [rewrite Hn, String.eqb_refl in E; discriminate|exact (IH Hf Hin)].
Qed.

Lemma findEntry_aget us n k u :
  NoDup (map fst us) -> findEntry us n = Some (k, u) -> aget Nat.eqb us k = Some u.
Proof.
  induction us as [|[k0 u0] r IH]; simpl; [discriminate|].
  intros Hd. inversion Hd as [|? ? Hn0 Hd0]; subst.
  destruct (String.eqb (username u0) n).
  - intros H. injection H as <- <-. rewrite Nat.eqb_refl. reflexivity.
  - intros Hf. destruct (Nat.eqb k0 k) eqn:E.
    + exfalso. apply Nat.eqb_eq in E. subst k0. apply Hn0.
      clear -Hf. induction r as [|[k1 u1] r IH]; simpl in *; [discriminate|].
      destruct (String.eqb (username u1) n); [injection Hf as <- <-; left; reflexivity|].
      right. exact (IH Hf).
    + exact (IH Hd0 Hf).
Qed.

Lemma wf_clients_adel w c : wf w -> wf (set_clients w (adel Nat.eqb (clients w) c)).
Proof. intros [H1 [H2 H3]]. split; [apply NoDup_map_filter; exact H1|split; assumption]. Qed.

Lemma wf_acceptSocket w c ipaddr :
  wf w -> ~ In c (map fst (clients w)) -> wf (set_clients w (clients w ++ [(c, ipaddr)])).
Proof.
  intros [H1 [H2 H3]] Hc. split; [|split; assumption]. simpl.
  rewrite map_app. apply NoDup_app; [exact H1|repeat constructor; simpl; tauto|].
  intros x Hx [Hx'|[]]. subst x. exact (Hc Hx).
Qed.

Lemma wf_users_adel w c : wf w -> wf (set_users w (adel Nat.eqb (users w) c)).
Proof.
  intros [H1 [H2 H3]]. split; [exact H1|split]; simpl;
    [apply NoDup_map_filter; exact H2 | unfold names; apply NoDup_map_filter; exact H3].
Qed.

Lemma wf_users_same w k u v :
  wf w -> aget Nat.eqb (users w) k = Some u -> username v = username u ->
  wf (set_users w (aset Nat.eqb (users w) k v)).
Proof.
  intros [H1 [H2 H3]] Hu Hv. split; [exact H1|split]; simpl.
  - apply NoDup_keys_aset. exact H2.
  - rewrite (names_aset_same _ k u v Hu Hv). exact H3.
Qed.

Lemma wf_users_fresh w k v :
  wf w -> findEntry (users w) (username v) = None ->
  wf (set_users w (aset Nat.eqb (users w) k v)).
Proof.
  intros [H1 [H2 H3]] Hf. split; [exact H1|split]; simpl.
  - apply NoDup_keys_aset. exact H2.
  - apply names_aset_fresh; [exact H3|]. exact (findEntry_none_names _ _ Hf).
Qed.

Ltac world_of := unfold after, terminate, broadcastUserList, broadcast in *; mstep; simpl.

Lemma findUser_none w n : findUserByUsername w n = None -> findEntry (users w) n = None.
Proof. unfold findUserByUsername. destruct (findEntry (users w) n); [discriminate|reflexivity]. Qed.

Lemma wf_handleJoin now gen c m ipaddr w : wf w -> wf (after (handleJoin now gen c m ipaddr) w).
Proof.
  intros Hw. unfold handleJoin. world_of.
  destruct (existsb (String.eqb (m_username m)) (bannedUsernames w)); simpl.
  { apply wf_clients_adel; exact Hw. }
  destruct (findUserByUsername w (m_username m)) eqn:F; simpl.
  { apply wf_clients_adel; exact Hw. }
  apply wf_users_fresh; [exact Hw|]. exact (findUser_none _ _ F).
Qed.

Lemma wf_set_channels w x : wf w -> wf (set_channels w x).
Proof. intros Hw; exact Hw. Qed.
Lemma wf_set_bannedUsernames w x : wf w -> wf (set_bannedUsernames w x).
Proof. intros Hw; exact Hw. Qed.
Lemma wf_set_bannedIPs w x : wf w -> wf (set_bannedIPs w x).
Proof. intros Hw; exact Hw. Qed.

Lemma wf_storeAndBroadcast now gen u m w : wf w -> wf (after (storeAndBroadcast now gen u m) w).
Proof.
  intros Hw. unfold storeAndBroadcast. world_of.
  destruct (channel_get w (m_channel m)); simpl; [apply wf_set_channels|]; exact Hw.
Qed.

Lemma wf_handleChatMessage now gen c m w : wf w -> wf (after (handleChatMessage now gen c m) w).
Proof.
  intros Hw. unfold handleChatMessage. world_of.
  destruct (users_get w c) as [u|]; [|exact Hw].
  destruct (muteExpires u) as [e|]; [destruct (now <? e); [exact Hw|]|];
    pose proof (wf_storeAndBroadcast now gen u m w Hw) as H; unfold after in H;
    destruct (storeAndBroadcast now gen u m w) as [[[] w2] o2]; exact H.
Qed.

Lemma wf_handleAdminMute now c m w : wf w -> wf (after (handleAdminMute now c m) w).
Proof.
  intros Hw. destruct (findEntry (users w) (m_targetUsername m)) as [[k u]|] eqn:F.
  - rewrite (handleAdminMute_world now c m w k u F).
    apply (wf_users_same w k u); [exact Hw| |reflexivity].
    apply (findEntry_aget _ (m_targetUsername m)); [apply Hw|exact F].
  - unfold handleAdminMute. world_of. rewrite F. exact Hw.
Qed.

Lemma wf_kickBanned t w : wf w -> wf (after (kickBanned t) w).
Proof.
  intros Hw. unfold kickBanned. world_of.
  destruct (findSocketByUsername w t); simpl; [apply wf_clients_adel|]; exact Hw.
Qed.

Lemma wf_handleAdminBan now c m w : wf w -> wf (after (handleAdminBan now c m) w).
Proof.
  intros Hw. unfold handleAdminBan. unfold after; mstep; simpl.
  destruct (findUserByUsername w (m_targetUsername m)) as [tu|]; [|exact Hw].
  destruct (String.eqb (m_banType m) "username").
  - pose proof (wf_kickBanned (m_targetUsername m)
                  (set_bannedUsernames w (set_add (bannedUsernames w) (m_targetUsername m)))
                  (wf_set_bannedUsernames _ _ Hw)) as H.
    unfold after in H. destruct (kickBanned _ _) as [[[] w2] o2]. exact H.
  - destruct (String.eqb (m_banType m) "ip"); [|exact Hw].
    pose proof (wf_kickBanned (m_targetUsername m)
                  (set_bannedIPs w (aset String.eqb (bannedIPs w) (ip tu)
                                     (calculateExpiry now (m_duration m))))
                  (wf_set_bannedIPs _ _ Hw)) as H.
    unfold after in H. destruct (kickBanned _ _) as [[[] w2] o2]. exact H.
Qed.

Lemma after_get (f : world -> M unit) w : after (bind get f) w = after (f w) w.
Proof. unfold after. mstep. destruct (f w w) as [[[] w2] o2]. reflexivity. Qed.

Lemma after_send_bind c p (k : M unit) w : after (bind (send c p) (fun _ => k)) w = after k w.
Proof. unfold after. mstep. destruct (k w) as [[[] w2] o2]. reflexivity. Qed.

Lemma wf_handleGetHistory c m w : wf w -> wf (after (handleGetHistory c m) w).
Proof.
  intros Hw. unfold handleGetHistory. rewrite after_get.
  destruct (channel_get w (m_channel m)); exact Hw.
Qed.

Lemma wf_handleTyping now c m w : wf w -> wf (after (handleTyping now c m) w).
Proof.
  intros Hw. unfold handleTyping. rewrite after_get.
  destruct (users_get w c) as [u|]; [destruct (isMutedAt now u)|]; exact Hw.
Qed.

Lemma wf_handleAdminKick now c m w : wf w -> wf (after (handleAdminKick now c m) w).
Proof.
  intros Hw. unfold handleAdminKick. rewrite after_get.
  destruct (findSocketByUsername w (m_targetUsername m)) as [s|]; [|exact Hw].
  world_of. apply wf_clients_adel. exact Hw.
Qed.

Lemma wf_handleAdminClear c m w : wf w -> wf (after (handleAdminClear c m) w).
Proof.
  intros Hw. unfold handleAdminClear. rewrite after_get.
  destruct (channel_get w (m_channel m)); [world_of|]; exact Hw.
Qed.

Lemma wf_handleMessage now gen c m ipaddr w :
  wf w -> wf (after (handleMessage now gen c m ipaddr) w).
Proof.
  intros Hw. unfold handleMessage. rewrite after_get. cbv beta.
  destruct (startsWith (mtype m) "admin_" && notAdmin w c); [exact Hw|].
  repeat match goal with
         | |- context [if String.eqb (mtype m) ?s then _ else _] =>
             destruct (String.eqb (mtype m) s)
         end;
  first [ apply wf_handleJoin | apply wf_handleChatMessage | apply wf_handleGetHistory
        | apply wf_handleTyping | apply wf_handleAdminKick | apply wf_handleAdminMute
        | apply wf_handleAdminBan | apply wf_handleAdminClear | idtac ]; exact Hw.
Qed.

Lemma wf_onConnection now c ipaddr w :
  wf w -> ~ In c (map fst (clients w)) -> wf (after (onConnection now c ipaddr) w).
Proof.
  intros Hw Hc. unfold onConnection. rewrite after_get.
  unfold acceptSocket. destruct (aget String.eqb (bannedIPs w) ipaddr) as [e|].
  - destruct (now <? e); [exact Hw|]. world_of.
    apply (wf_acceptSocket (set_bannedIPs w (adel String.eqb (bannedIPs w) ipaddr))); [exact Hw|exact Hc].
  - world_of. apply wf_acceptSocket; [exact Hw|exact Hc].
Qed.

Lemma wf_onClose now c w : wf w -> wf (after (onClose now c) w).
Proof.
  intros Hw. unfold onClose. world_of.
  pose proof (wf_clients_adel w c Hw) as H1.
  destruct (users_get _ c); simpl; [|exact H1].
  exact (wf_users_adel _ c H1).
Qed.

Lemma wf_clearExpired now ks : forall w, wf w -> wf (fold_left (clearExpired now) ks w).
Proof.
  induction ks as [|k ks IH]; intros w Hw; [exact Hw|].
  simpl. apply IH. unfold clearExpired.
  destruct (users_get w k) as [u|] eqn:Hu; [|exact Hw].
  destruct (muteExpires u); [|exact Hw]. destruct (_ <? now); [|exact Hw].
  apply (wf_users_same w k u); [exact Hw|exact Hu|reflexivity].
Qed.

Lemma wf_sweep now w : wf w -> wf (after (sweep now) w).
Proof.
  intros Hw. rewrite sweep_world. apply wf_clearExpired. exact Hw.
Qed.

Lemma aget_none_keys {V} (m : list (conn * V)) k :
  aget Nat.eqb m k = None -> ~ In k (map fst m).
Proof.
  induction m as [|[k0 v0] r IH]; simpl; [tauto|].
  destruct (Nat.eqb k0 k) eqn:E; [discriminate|].
  intros H [Hk|Hin]; [subst; rewrite Nat.eqb_refl in E; discriminate|exact (IH H Hin)].
Qed.

Lemma wf_step now ev w : wf w -> event_ok w ev -> wf (after (step now ev) w).
Proof.
  intros Hw Hok. destruct ev as [c ipaddr|c m gen|c|]; simpl in Hok.
  - apply wf_onConnection; [exact Hw|]. apply aget_none_keys, Hok.
  - simpl. rewrite after_get. destruct (aget Nat.eqb (clients w) c); [|exact Hw].
    apply wf_handleMessage. exact Hw.
  - apply wf_onClose. exact Hw.
  - apply wf_sweep. exact Hw.
Qed.

Lemma reachable_wf w : reachable w -> wf w.
Proof.
  induction 1 as [|w now ev w' outs Hr IH Hok Hs].
  - repeat split; simpl; constructor.
  - pose proof (wf_step now ev w IH Hok) as H. unfold after in H. rewrite Hs in H. exact H.
Qed.

(** ** Joins *)

Lemma join_taken now gen c m ipaddr w :
  mtype m = "join" ->
  existsb (String.eqb (m_username m)) (bannedUsernames w) = false ->
  findUserByUsername w (m_username m) <> None ->
  handleMessage now gen c m ipaddr w =
    (tt, set_clients w (adel Nat.eqb (clients w) c),
     [Send c (PError "This username is already taken." true)]).
Proof.
  intros Hty Hb Hf. unfold handleMessage. mstep. rewrite Hty. simpl.
  unfold handleJoin, terminate. mstep. rewrite Hb.
  destruct (findUserByUsername w (m_username m)); [reflexivity|congruence].
Qed.

Lemma findEntry_of_aget us c u :
  aget Nat.eqb us c = Some u -> findEntry us (username u) <> None.
Proof.
  induction us as [|[k v] r IH]; simpl; [discriminate|].
  destruct (Nat.eqb k c).
  - intros H. injection H as <-. rewrite String.eqb_refl. discriminate.
  - intros H. destruct (String.eqb (username v) (username u)); [discriminate|exact (IH H)].
Qed.

Lemma aget_adel_nat {V} (m : list (conn * V)) k k' :
  aget Nat.eqb (adel Nat.eqb m k) k' = if Nat.eqb k k' then None else aget Nat.eqb m k'.
Proof.
  induction m as [|[k0 v0] r IH]; simpl; [destruct (Nat.eqb k k'); reflexivity|].
  destruct (Nat.eqb k0 k) eqn:E; simpl.
  - apply Nat.eqb_eq in E. subst k0. rewrite IH.
    destruct (Nat.eqb k k'); reflexivity.
  - rewrite IH. destruct (Nat.eqb k0 k') eqn:E'; [|reflexivity].
    apply Nat.eqb_eq in E'. subst k'. rewrite Nat.eqb_sym, E. reflexivity.
Qed.

Lemma onClose_removes now c w : users_get (after (onClose now c) w) c = None.
Proof.
  unfold onClose. world_of. unfold users_get; simpl.
  destruct (aget Nat.eqb (users w) c) eqn:E; simpl;
    [rewrite aget_adel_nat, Nat.eqb_refl; reflexivity | exact E].
Qed.

Lemma after_run_cons t ev r w : after (run ((t, ev) :: r)) w = after (run r) (after (step t ev) w).
Proof.
  unfold after. simpl. mstep.
  destruct (step t ev w) as [[[] w1] o1]. simpl.
  destruct (run r w1) as [[[] w2] o2]. reflexivity.
Qed.

Lemma reachable_run evs : forall w,
  reachable w -> run_ok w evs = true -> reachable (after (run evs) w).
Proof.
  induction evs as [|[t ev] r IH]; intros w Hr Hok; [exact Hr|].
  simpl in Hok. apply andb_true_iff in Hok. destruct Hok as [Hev Hok].
  rewrite after_run_cons. apply IH; [|exact Hok].
  unfold after. destruct (step t ev w) as [[[] w1] o1] eqn:Hs. simpl.
  apply (reach_step w t ev w1 o1 Hr); [|exact Hs].
  destruct ev as [c ipaddr|c m gen|c|]; simpl in *; try exact I.
  destruct (aget Nat.eqb (clients w) c); [discriminate|].
  destruct (users_get w c); [discriminate|]. split; reflexivity.
Qed.

(** C2 (as stated): a second join with an identity held by a live session
    leaves the first session live.  Refuted when the second join comes from
    the session's own socket: socket 1 joins as alice and joins as alice
    again; the reply is "already taken", socket 1 is terminated, and its
    close event removes the session. *)
Lemma same_socket_rejoin_drops_first :
  let w2 := after (run rejoin_run) init_world in
  run_ok init_world rejoin_run = true /\
  emitted (run rejoin_run) init_world =
    [Send 1%nat (PConnected "Connected to server");
     Send 1%nat (PJoined "alice" ["general"; "random"; "gaming"]);
     Send 1%nat (PUserList [("alice", false, false)]);
     Send 1%nat (PError "This username is already taken." true)] /\
  aget Nat.eqb (clients w2) 1%nat = None /\
  users (after (step 0 (Close 1%nat)) w2) = [].
Proof. vm_compute. repeat split. Qed.

(** C2 (amended): in every reachable world (any sequence of events from the
    initial storage, joins included) no two sessions hold the same identity;
    and a [join] from another socket naming an identity held by a session,
    when that identity is not banned (always so if only joins have
    happened), is answered only with "already taken", leaves [users]
    unchanged and leaves the holder's socket as open as it was; a [join]
    from the holder's own socket naming its identity is also answered only
    with "already taken", leaves [users] unchanged, and that socket is
    terminated. *)
Theorem identity_unique_taken w :
  reachable w ->
  NoDup (names (users w)) /\
  (forall now gen c1 u1 c2 m ipaddr,
     users_get w c1 = Some u1 -> c1 <> c2 ->
     mtype m = "join" -> m_username m = username u1 ->
     existsb (String.eqb (username u1)) (bannedUsernames w) = false ->
     let '(_, w', outs) := handleMessage now gen c2 m ipaddr w in
     outs = [Send c2 (PError "This username is already taken." true)] /\
     users w' = users w /\
     aget Nat.eqb (clients w') c1 = aget Nat.eqb (clients w) c1) /\
  (forall now gen c u m ipaddr,
     users_get w c = Some u ->
     mtype m = "join" -> m_username m = username u ->
     existsb (String.eqb (username u)) (bannedUsernames w) = false ->
     let '(_, w', outs) := handleMessage now gen c m ipaddr w in
     outs = [Send c (PError "This username is already taken." true)] /\
     users w' = users w /\
     aget Nat.eqb (clients w') c = None).
Proof.
  intros Hr. split; [apply (reachable_wf w Hr)|]. split.
  - intros now gen c1 u1 c2 m ipaddr Hu Hne Hty Hn Hb.
    rewrite <- Hn in Hb.
    rewrite (join_taken now gen c2 m ipaddr w Hty Hb).
    + simpl. split; [reflexivity|]. split; [reflexivity|].
      rewrite aget_adel_nat. destruct (Nat.eqb c2 c1) eqn:E; [|reflexivity].
      apply Nat.eqb_eq in E. congruence.
    + unfold findUserByUsername. rewrite Hn.
      pose proof (findEntry_of_aget (users w) c1 u1 Hu) as H.
      destruct (findEntry (users w) (username u1)); [discriminate|congruence].
  - intros now gen c u m ipaddr Hu Hty Hn Hb.
    rewrite <- Hn in Hb.
    rewrite (join_taken now gen c m ipaddr w Hty Hb).
    + simpl. split; [reflexivity|]. split; [reflexivity|].
      rewrite aget_adel_nat, Nat.eqb_refl. reflexivity.
    + unfold findUserByUsername. rewrite Hn.
      pose proof (findEntry_of_aget (users w) c u Hu) as H.
      destruct (findEntry (users w) (username u)); [discriminate|congruence].
Qed.

Lemma identity_unique_taken_witness :
  let w := after (run two_sockets_run) init_world in
  reachable w /\
  NoDup (names (users w)) /\
  (let '(_, w', outs) := handleMessage 0 "g2" 2%nat (join_frame "alice" false) "10.0.0.2" w in
   outs = [Send 2%nat (PError "This username is already taken." true)] /\
   users w' = users w /\
   aget Nat.eqb (clients w') 1%nat = aget Nat.eqb (clients w) 1%nat) /\
  let '(_, w', outs) := handleMessage 0 "g3" 1%nat (join_frame "alice" false) "10.0.0.1" w in
  outs = [Send 1%nat (PError "This username is already taken." true)] /\
  users w' = users w /\
  aget Nat.eqb (clients w') 1%nat = None.
Proof.
  cbv zeta.
  assert (Hr : reachable (after (run two_sockets_run) init_world))
    by (apply reachable_run; [exact reach_init | vm_compute; reflexivity]).
  split; [exact Hr|].
  destruct (identity_unique_taken _ Hr) as [Hd [Ht Ho]]. split; [exact Hd|]. split.
  - apply (Ht 0 "g2" 1%nat (mkUser "alice" "g1" "10.0.0.1" false None) 2%nat
              (join_frame "alice" false) "10.0.0.2");
      [vm_compute; reflexivity | discriminate | reflexivity | reflexivity | vm_compute; reflexivity].
  - apply (Ho 0 "g3" 1%nat (mkUser "alice" "g1" "10.0.0.1" false None)
              (join_frame "alice" false) "10.0.0.1");
      [vm_compute; reflexivity | reflexivity | reflexivity | vm_compute; reflexivity].
Defined.

(** C10: a socket that holds a session and sends another [join] with its own
    (not banned) identity finds its own session in the duplicate lookup: the
    reply is "already taken" with the kick flag, the socket is terminated
    (no longer open), and its close handler then deletes its session. *)
Theorem rejoin_own_identity now gen c m ipaddr w u :
  users_get w c = Some u -> mtype m = "join" -> m_username m = username u ->
  existsb (String.eqb (username u)) (bannedUsernames w) = false ->
  let w' := set_clients w (adel Nat.eqb (clients w) c) in
  handleMessage now gen c m ipaddr w =
    (tt, w', [Send c (PError "This username is already taken." true)]) /\
  aget Nat.eqb (clients w') c = None /\
  users_get w' c = Some u /\
  users_get (after (onClose now c) w') c = None.
Proof.
  intros Hu Hty Hn Hb w'. rewrite <- Hn in Hb. split; [|split; [|split]].
  - apply (join_taken now gen c m ipaddr w Hty Hb).
    unfold findUserByUsername. rewrite Hn.
    pose proof (findEntry_of_aget (users w) c u Hu) as H.
    destruct (findEntry (users w) (username u)); [discriminate|congruence].
  - unfold w'. simpl. rewrite aget_adel_nat, Nat.eqb_refl. reflexivity.
  - exact Hu.
  - apply onClose_removes.
Qed.

Lemma rejoin_own_identity_witness :
  let w' := set_clients w_alice (adel Nat.eqb (clients w_alice) 1%nat) in
  handleMessage 5 "g" 1%nat (join_frame "alice" false) "10.0.0.1" w_alice =
    (tt, w', [Send 1%nat (PError "This username is already taken." true)]) /\
  aget Nat.eqb (clients w') 1%nat = None /\
  users_get w' 1%nat = Some alice /\
  users_get (after (onClose 5 1%nat) w') 1%nat = None.
Proof.
  apply (rejoin_own_identity 5 "g" 1%nat (join_frame "alice" false) "10.0.0.1" w_alice alice);
    reflexivity.
Defined.

(** ** Broadcast *)

Lemma storeAndBroadcast_outputs now gen u m w :
  emitted (storeAndBroadcast now gen u m) w =
    map (fun ci => Send (fst ci)
                     (PMessage (mkChat gen (username u) (m_text m) (m_channel m) now (isAdmin u))))
        (clients w).
Proof.
  unfold emitted, storeAndBroadcast, broadcast. mstep.
  destruct (channel_get w (m_channel m)); simpl; rewrite filter_true; reflexivity.
Qed.

Lemma count_dest_once p (l : list (conn * string)) x :
  NoDup (map fst l) -> In x (map fst l) ->
  length (filter (fun o => Nat.eqb (dest o) x) (map (fun ci => Send (fst ci) p) l)) = 1%nat.
Proof.
  induction l as [|[k i] r IH]; simpl; [tauto|].
  intros Hd Hin. inversion Hd as [|? ? Hn Hd0]; subst.
  destruct (Nat.eqb k x) eqn:E; simpl.
  - apply Nat.eqb_eq in E. subst k. f_equal.
    assert (Hz : forall r' : list (conn * string), ~ In x (map fst r') ->
                 filter (fun o => Nat.eqb (dest o) x) (map (fun ci => Send (fst ci) p) r') = []).
    { induction r' as [|[k' i'] r' IHr]; simpl; [reflexivity|].
      intros Hx. destruct (Nat.eqb k' x) eqn:E'.
      - apply Nat.eqb_eq in E'. exfalso. apply Hx. left. exact E'.
      - apply IHr. intros H. apply Hx. right. exact H. }
    rewrite (Hz r Hn). reflexivity.
  - destruct Hin as [Hk|Hin]; [subst; rewrite Nat.eqb_refl in E; discriminate|].
    exact (IH Hd0 Hin).
Qed.

(** C9: a chat message accepted from a joined, unmuted session on an open
    socket for an existing channel yields exactly one frame per open socket
    (every live session's socket, and the sender's own), each carrying the
    new chat event, and no other frame. *)
Theorem broadcast_exactly_once w now gen c ipaddr u m :
  reachable w ->
  aget Nat.eqb (clients w) c = Some ipaddr ->
  users_get w c = Some u -> isMutedAt now u = false ->
  mtype m = "message" -> channel_get w (m_channel m) <> None ->
  let cm := mkChat gen (username u) (m_text m) (m_channel m) now (isAdmin u) in
  let outs := emitted (step now (Recv c m gen)) w in
  Forall (fun o => data o = PMessage cm) outs /\
  (forall c', In c' (map fst (clients w)) ->
     length (filter (fun o => Nat.eqb (dest o) c') outs) = 1%nat) /\
  In c (map fst (clients w)).
Proof.
  intros Hr Hc Hu Hm Hty Hch cm outs.
  assert (Houts : outs = map (fun ci => Send (fst ci) (PMessage cm)) (clients w)).
  { unfold outs, cm. rewrite <- (storeAndBroadcast_outputs now gen u m w).
    unfold emitted. simpl. mstep. rewrite Hc. simpl.
    rewrite (handleMessage_chat now gen c m ipaddr w Hty).
    rewrite (chat_accepted now gen c m w u Hu Hm).
    destruct (storeAndBroadcast now gen u m w) as [[[] w2] o2]. reflexivity. }
  destruct (reachable_wf w Hr) as [Hd _].
  split; [|split].
  - rewrite Houts. apply Forall_forall. intros o Ho.
    apply in_map_iff in Ho. destruct Ho as [ci [<- _]]. reflexivity.
  - intros c' Hin. rewrite Houts. exact (count_dest_once _ _ _ Hd Hin).
  - clear -Hc. induction (clients w) as [|[k i] r IH]; simpl in *; [discriminate|].
    destruct (Nat.eqb k c) eqn:E; [left; apply Nat.eqb_eq; exact E|right; exact (IH Hc)].
Qed.

Lemma broadcast_exactly_once_witness :
  let w := after (run two_sockets_run) init_world in
  let m := chat_frame "general" "hi" in
  let u := mkUser "alice" "g1" "10.0.0.1" false None in
  let cm := mkChat "g9" (username u) (m_text m) (m_channel m) 7 (isAdmin u) in
  let outs := emitted (step 7 (Recv 1%nat m "g9")) w in
  Forall (fun o => data o = PMessage cm) outs /\
  (forall c', In c' (map fst (clients w)) ->
     length (filter (fun o => Nat.eqb (dest o) c') outs) = 1%nat) /\
  In 1%nat (map fst (clients w)).
Proof.
  cbv zeta.
  apply (broadcast_exactly_once (after (run two_sockets_run) init_world) 7 "g9" 1%nat "10.0.0.1"
           (mkUser "alice" "g1" "10.0.0.1" false None) (chat_frame "general" "hi")).
  - apply reachable_run; [exact reach_init | vm_compute; reflexivity].
  - vm_compute; reflexivity.
  - vm_compute; reflexivity.
  - reflexivity.
  - reflexivity.
  - vm_compute; discriminate.
Defined.

(** ** Ban tables *)

Lemma bans_handleJoin now gen c m ipaddr w : same_bans w (after (handleJoin now gen c m ipaddr) w).
Proof.
  unfold handleJoin, same_bans. world_of.
  destruct (existsb _ _); simpl; [split; reflexivity|].
  destruct (findUserByUsername _ _); simpl; split; reflexivity.
Qed.

Lemma bans_storeAndBroadcast now gen u m w : same_bans w (after (storeAndBroadcast now gen u m) w).
Proof.
  unfold storeAndBroadcast, same_bans. world_of.
  destruct (channel_get w (m_channel m)); simpl; split; reflexivity.
Qed.

Lemma bans_handleChatMessage now gen c m w : same_bans w (after (handleChatMessage now gen c m) w).
Proof.
  unfold handleChatMessage. rewrite after_get.
  destruct (users_get w c) as [u|]; [|split; reflexivity].
  destruct (muteExpires u) as [e|]; [destruct (now <? e); [split; reflexivity|]|];
    apply bans_storeAndBroadcast.
Qed.

Lemma bans_handleGetHistory c m w : same_bans w (after (handleGetHistory c m) w).
Proof.
  unfold handleGetHistory. rewrite after_get.
  destruct (channel_get w (m_channel m)); split; reflexivity.
Qed.

Lemma bans_handleTyping now c m w : same_bans w (after (handleTyping now c m) w).
Proof.
  unfold handleTyping. rewrite after_get.
  destruct (users_get w c) as [u|]; [destruct (isMutedAt now u)|]; split; reflexivity.
Qed.

Lemma bans_handleAdminKick now c m w : same_bans w (after (handleAdminKick now c m) w).
Proof.
  unfold handleAdminKick. rewrite after_get.
  destruct (findSocketByUsername w (m_targetUsername m)); [world_of|]; split; reflexivity.
Qed.

Lemma bans_handleAdminMute now c m w : same_bans w (after (handleAdminMute now c m) w).
Proof.
  destruct (findEntry (users w) (m_targetUsername m)) as [[k u]|] eqn:F.
  - rewrite (handleAdminMute_world now c m w k u F). split; reflexivity.
  - unfold handleAdminMute. world_of. rewrite F. split; reflexivity.
Qed.

Lemma bans_handleAdminClear c m w : same_bans w (after (handleAdminClear c m) w).
Proof.
  unfold handleAdminClear. rewrite after_get.
  destruct (channel_get w (m_channel m)); [world_of|]; split; reflexivity.
Qed.

Lemma bans_kickBanned t w : same_bans w (after (kickBanned t) w).
Proof.
  unfold kickBanned. rewrite after_get.
  destruct (findSocketByUsername w t); [world_of|]; split; reflexivity.
Qed.

(** [handleAdminBan] only ever adds to the username bans, and only touches
    the address bans for the [ip] ban type. *)
Lemma bans_handleAdminBan now c m w :
  (bannedUsernames (after (handleAdminBan now c m) w) = bannedUsernames w \/
   bannedUsernames (after (handleAdminBan now c m) w) =
     set_add (bannedUsernames w) (m_targetUsername m)) /\
  (bannedIPs (after (handleAdminBan now c m) w) = bannedIPs w \/
   String.eqb (m_banType m) "ip" = true /\
   exists i, bannedIPs (after (handleAdminBan now c m) w) =
               aset String.eqb (bannedIPs w) i (calculateExpiry now (m_duration m))).
Proof.
  unfold handleAdminBan. rewrite after_get. cbv beta.
  destruct (findUserByUsername w (m_targetUsername m)) as [tu|];
    [|split; left; reflexivity].
  destruct (String.eqb (m_banType m) "username") eqn:Eu.
  - unfold after. mstep. simpl.
    pose proof (bans_kickBanned (m_targetUsername m)
                  (set_bannedUsernames w (set_add (bannedUsernames w) (m_targetUsername m))))
      as [H1 H2].
    unfold after in H1, H2. destruct (kickBanned _ _) as [[[] w2] o2]. simpl in *.
    split; [right; exact H1|left; exact H2].
  - destruct (String.eqb (m_banType m) "ip") eqn:Ei; [|split; left; reflexivity].
    unfold after. mstep. simpl.
    pose proof (bans_kickBanned (m_targetUsername m)
                  (set_bannedIPs w (aset String.eqb (bannedIPs w) (ip tu)
                                      (calculateExpiry now (m_duration m))))) as [H1 H2].
    unfold after in H1, H2. destruct (kickBanned _ _) as [[[] w2] o2]. simpl in *.
    split; [left; exact H1|right; split; [reflexivity|exists (ip tu); exact H2]].
Qed.

Ltac bans_of_handler :=
  lazymatch goal with
  | |- context [after (handleJoin ?a ?b ?c ?d ?e) ?w] => pose proof (bans_handleJoin a b c d e w)
  | |- context [after (handleChatMessage ?a ?b ?c ?d) ?w] => pose proof (bans_handleChatMessage a b c d w)
  | |- context [after (handleGetHistory ?a ?b) ?w] => pose proof (bans_handleGetHistory a b w)
  | |- context [after (handleTyping ?a ?b ?c) ?w] => pose proof (bans_handleTyping a b c w)
  | |- context [after (handleAdminKick ?a ?b ?c) ?w] => pose proof (bans_handleAdminKick a b c w)
  | |- context [after (handleAdminMute ?a ?b ?c) ?w] => pose proof (bans_handleAdminMute a b c w)
  | |- context [after (handleAdminClear ?a ?b) ?w] => pose proof (bans_handleAdminClear a b w)
  | |- context [after (ret tt) ?w] => assert (same_bans w (after (ret tt) w)) by (split; reflexivity)
  end.

Lemma bans_handleMessage now gen c m ipaddr w :
  let w' := after (handleMessage now gen c m ipaddr) w in
  (bannedUsernames w' = bannedUsernames w \/
   bannedUsernames w' = set_add (bannedUsernames w) (m_targetUsername m)) /\
  (bannedIPs w' = bannedIPs w \/
   ip_ban_event (Recv c m gen) = true /\
   exists i, bannedIPs w' = aset String.eqb (bannedIPs w) i (calculateExpiry now (m_duration m))).
Proof.
  cbv zeta. unfold handleMessage. rewrite after_get. cbv beta.
  destruct (startsWith (mtype m) "admin_" && notAdmin w c); [split; left; reflexivity|].
  destruct (String.eqb (mtype m) "admin_ban") eqn:Eb.
  - repeat match goal with
           | |- context [if String.eqb (mtype m) ?s then _ else _] =>
               destruct (String.eqb (mtype m) s) eqn:?
           end;
    try (bans_of_handler; match goal with H : same_bans _ _ |- _ => destruct H as [-> ->] end;
         split; left; reflexivity).
    destruct (bans_handleAdminBan now c m w) as [H1 H2]. split; [exact H1|].
    destruct H2 as [H2|[Hi H2]]; [left; exact H2|right; split; [simpl; rewrite Eb, Hi; reflexivity|exact H2]].
  - repeat match goal with
           | |- context [if String.eqb (mtype m) ?s then _ else _] =>
               destruct (String.eqb (mtype m) s) eqn:?
           end;
    bans_of_handler; match goal with H : same_bans _ _ |- _ => destruct H as [-> ->] end;
    split; left; reflexivity.
Qed.

Lemma bans_onClose now c w : same_bans w (after (onClose now c) w).
Proof.
  unfold onClose. world_of. unfold users_get; simpl.
  destruct (aget Nat.eqb (users w) c); simpl; split; reflexivity.
Qed.

Lemma bans_onConnection now c ipaddr w :
  let w' := after (onConnection now c ipaddr) w in
  bannedUsernames w' = bannedUsernames w /\
  (bannedIPs w' = bannedIPs w \/
   exists e, aget String.eqb (bannedIPs w) ipaddr = Some e /\ e <= now /\
             bannedIPs w' = adel String.eqb (bannedIPs w) ipaddr).
Proof.
  cbv zeta. unfold onConnection. rewrite after_get. cbv beta. unfold acceptSocket.
  destruct (aget String.eqb (bannedIPs w) ipaddr) as [e|] eqn:E.
  - destruct (now <? e) eqn:Elt; [split; [reflexivity|left; reflexivity]|].
    world_of. split; [reflexivity|right]. exists e. split; [reflexivity|].
    split; [apply Z.ltb_ge; exact Elt|reflexivity].
  - world_of. split; [reflexivity|left; reflexivity].
Qed.

Lemma bans_clearExpired now ks : forall w, same_bans w (fold_left (clearExpired now) ks w).
Proof.
  induction ks as [|k ks IH]; intros w; [split; reflexivity|].
  simpl. destruct (IH (clearExpired now w k)) as [H1 H2]. unfold same_bans. rewrite H1, H2.
  unfold clearExpired. destruct (users_get w k) as [u|]; [|split; reflexivity].
  destruct (muteExpires u); [|split; reflexivity].
  destruct (_ <? now); split; reflexivity.
Qed.

Lemma bans_sweep now w :
  bannedUsernames (after (sweep now) w) = bannedUsernames w /\
  bannedIPs (after (sweep now) w) = filter (fun b => negb (snd b <? now)) (bannedIPs w).
Proof.
  rewrite sweep_world.
  destruct (bans_clearExpired now (map fst (users w))
              (set_bannedIPs w (filter (fun b => negb (snd b <? now)) (bannedIPs w)))) as [H1 H2].
  rewrite H1, H2. split; reflexivity.
Qed.

Lemma set_add_incl l n x : In x l -> In x (set_add l n).
Proof. unfold set_add. destruct (existsb _ _); [tauto|]. intros H. apply in_or_app. left. exact H. Qed.

Lemma step_usernames_mono t ev w n :
  In n (bannedUsernames w) -> In n (bannedUsernames (after (step t ev) w)).
Proof.
  intros Hn. destruct ev as [c ipaddr|c m gen|c|]; simpl.
  - destruct (bans_onConnection t c ipaddr w) as [H _]. rewrite H. exact Hn.
  - rewrite after_get. destruct (aget Nat.eqb (clients w) c); [|exact Hn].
    destruct (bans_handleMessage t gen c m s w) as [[H|H] _]; rewrite H;
      [exact Hn|apply set_add_incl; exact Hn].
  - destruct (bans_onClose t c w) as [H _]. rewrite H. exact Hn.
  - destruct (bans_sweep t w) as [H _]. rewrite H. exact Hn.
Qed.

Lemma run_usernames_mono evs : forall w n,
  In n (bannedUsernames w) -> In n (bannedUsernames (after (run evs) w)).
Proof.
  induction evs as [|[t ev] r IH]; intros w n Hn; [exact Hn|].
  rewrite after_run_cons. apply IH. apply step_usernames_mono. exact Hn.
Qed.

Lemma join_banned now gen c m ipaddr w :
  mtype m = "join" -> In (m_username m) (bannedUsernames w) ->
  handleMessage now gen c m ipaddr w =
    (tt, set_clients w (adel Nat.eqb (clients w) c),
     [Send c (PError "This username is banned." true)]).
Proof.
  intros Hty Hb. unfold handleMessage. mstep. rewrite Hty. simpl.
  unfold handleJoin, terminate. mstep.
  replace (existsb (String.eqb (m_username m)) (bannedUsernames w)) with true.
  - reflexivity.
  - symmetry. apply existsb_exists. exists (m_username m). split; [exact Hb|apply String.eqb_refl].
Qed.

(** ** Address bans *)

Lemma step_ip t ev w i :
  ip_ban_event ev = false -> NoDup (map fst (bannedIPs w)) ->
  let w' := after (step t ev) w in
  NoDup (map fst (bannedIPs w')) /\
  (aget String.eqb (bannedIPs w') i = aget String.eqb (bannedIPs w) i \/
   aget String.eqb (bannedIPs w') i = None /\
   exists e, aget String.eqb (bannedIPs w) i = Some e /\ e <= t).
Proof.
  intros Hev Hd. cbv zeta. destruct ev as [c ipaddr|c m gen|c|]; simpl.
  - destruct (bans_onConnection t c ipaddr w) as [_ [H|[e [He [Hle H]]]]]; rewrite H.
    + split; [exact Hd|left; reflexivity].
    + split; [apply NoDup_map_filter; exact Hd|].
      rewrite (aget_adel_gen String.eqb string_eqb_spec).
      destruct (String.eqb ipaddr i) eqn:Ei; [|left; reflexivity].
      apply String.eqb_eq in Ei. subst ipaddr. right. split; [reflexivity|].
      exists e. split; [exact He|exact Hle].
  - rewrite after_get. destruct (aget Nat.eqb (clients w) c); [|split; [exact Hd|left; reflexivity]].
    destruct (bans_handleMessage t gen c m s w) as [_ [H|[Hi _]]].
    + rewrite H. split; [exact Hd|left; reflexivity].
    + simpl in Hev, Hi. rewrite Hev in Hi. discriminate.
  - destruct (bans_onClose t c w) as [_ H]. rewrite H. split; [exact Hd|left; reflexivity].
  - destruct (bans_sweep t w) as [_ H]. rewrite H.
    split; [apply NoDup_map_filter; exact Hd|].
    destruct (aget String.eqb (bannedIPs w) i) as [e|] eqn:He.
    + rewrite (aget_filter_gen String.eqb string_eqb_spec _ _ i e Hd He). simpl.
      destruct (e <? t) eqn:Elt; simpl; [|left; reflexivity].
      right. split; [reflexivity|]. exists e. split; [reflexivity|]. apply Z.ltb_lt in Elt. lia.
    + left. apply aget_filter_none. exact He.
Qed.

(** Along a run without address bans, an address-ban entry either stays
    as it was, or has been dropped at a time no earlier than its expiry. *)
Lemma run_ip evs : forall w i,
  forallb (fun te => negb (ip_ban_event (snd te))) evs = true ->
  NoDup (map fst (bannedIPs w)) ->
  aget String.eqb (bannedIPs (after (run evs) w)) i = aget String.eqb (bannedIPs w) i \/
  (aget String.eqb (bannedIPs (after (run evs) w)) i = None /\
   exists e, aget String.eqb (bannedIPs w) i = Some e /\
   forall t, all_before evs t = true -> e <= t).
Proof.
  induction evs as [|[t0 ev] r IH]; intros w i Hno Hd.
  - left. reflexivity.
  - simpl in Hno. apply andb_true_iff in Hno. destruct Hno as [Hev Hno].
    apply negb_true_iff in Hev.
    rewrite after_run_cons.
    destruct (step_ip t0 ev w i Hev Hd) as [Hd' [Hs|[Hn [e [He Hle]]]]].
    + rewrite <- Hs. destruct (IH _ i Hno Hd') as [H|[Hn [e [He Hall]]]].
      * left. exact H.
      * right. split; [exact Hn|]. exists e. split; [exact He|].
        intros t Hb. simpl in Hb. apply andb_true_iff in Hb. destruct Hb as [_ Hb].
        exact (Hall t Hb).
    + right. split.
      * destruct (IH _ i Hno Hd') as [H|[H _]]; rewrite H; [exact Hn|reflexivity].
      * exists e. split; [exact He|]. intros t Hb. simpl in Hb.
        apply andb_true_iff in Hb. destruct Hb as [Ht0 _]. apply Z.leb_le in Ht0. lia.
Qed.

Lemma handleMessage_admin_ban now gen c m ipaddr w a :
  users_get w c = Some a -> isAdmin a = true -> mtype m = "admin_ban" ->
  after (handleMessage now gen c m ipaddr) w = after (handleAdminBan now c m) w.
Proof.
  intros Hc Ha Hty. unfold after, handleMessage, notAdmin. mstep.
  rewrite Hc, Ha, Hty. simpl.
  destruct (handleAdminBan now c m w) as [[[] w2] o2]. reflexivity.
Qed.

Lemma admin_ban_username now c m w tu :
  findUserByUsername w (m_targetUsername m) = Some tu -> m_banType m = "username" ->
  bannedUsernames (after (handleAdminBan now c m) w) =
    set_add (bannedUsernames w) (m_targetUsername m).
Proof.
  intros Hf Hb. unfold handleAdminBan. rewrite after_get. cbv beta. rewrite Hf, Hb. simpl.
  unfold after. mstep. simpl.
  pose proof (bans_kickBanned (m_targetUsername m)
                (set_bannedUsernames w (set_add (bannedUsernames w) (m_targetUsername m))))
    as [H1 _].
  unfold after in H1. destruct (kickBanned _ _) as [[[] w2] o2]. exact H1.
Qed.

Lemma admin_ban_ip now c m w tu :
  findUserByUsername w (m_targetUsername m) = Some tu -> m_banType m = "ip" ->
  bannedIPs (after (handleAdminBan now c m) w) =
    aset String.eqb (bannedIPs w) (ip tu) (calculateExpiry now (m_duration m)).
Proof.
  intros Hf Hb. unfold handleAdminBan. rewrite after_get. cbv beta. rewrite Hf, Hb. simpl.
  unfold after. mstep. simpl.
  pose proof (bans_kickBanned (m_targetUsername m)
                (set_bannedIPs w (aset String.eqb (bannedIPs w) (ip tu)
                                    (calculateExpiry now (m_duration m))))) as [_ H2].
  unfold after in H2. destruct (kickBanned _ _) as [[[] w2] o2]. exact H2.
Qed.

Lemma set_add_in l n : In n (set_add l n).
Proof.
  unfold set_add. destruct (existsb (String.eqb n) l) eqn:E.
  - apply existsb_exists in E. destruct E as [x [Hx Ex]].
    apply String.eqb_eq in Ex. subst x. exact Hx.
  - apply in_or_app. right. left. reflexivity.
Qed.

Lemma connect_blocked t c ipaddr w e :
  aget String.eqb (bannedIPs w) ipaddr = Some e -> t < e ->
  onConnection t c ipaddr w = (tt, w, [Send c (PError "You are banned from this server." true)]).
Proof.
  intros He Hlt. unfold onConnection. mstep. rewrite He.
  apply Z.ltb_lt in Hlt. rewrite Hlt. reflexivity.
Qed.

Lemma connect_admitted t c ipaddr w :
  (aget String.eqb (bannedIPs w) ipaddr = None \/
   exists e, aget String.eqb (bannedIPs w) ipaddr = Some e /\ e <= t) ->
  emitted (onConnection t c ipaddr) w = [Send c (PConnected "Connected to server")] /\
  In (c, ipaddr) (clients (after (onConnection t c ipaddr) w)).
Proof.
  intros H. unfold emitted, after, onConnection, acceptSocket. mstep.
  destruct H as [H|[e [H Hle]]]; rewrite H.
  - simpl. split; [reflexivity|]. apply in_or_app. right. left. reflexivity.
  - assert (Hge : (t <? e) = false) by (apply Z.ltb_ge; exact Hle). rewrite Hge.
    simpl. split; [reflexivity|]. apply in_or_app. right. left. reflexivity.
Qed.





(** ** Further properties of the handlers *)

(** A [join] whose name is neither banned nor held creates the session
    [{username, id, ip, isAdmin, muteExpires: null}] for the socket, with
    the [isAdmin] flag taken from the frame itself (so the socket passes the
    admin gate exactly when the frame claimed it); the joiner gets [joined]
    with the channel names, then every open client, the joiner included,
    gets the new user list. *)
Theorem join_accepted now gen c m ipaddr w :
  mtype m = "join" ->
  existsb (String.eqb (m_username m)) (bannedUsernames w) = false ->
  findUserByUsername w (m_username m) = None ->
  let u := mkUser (m_username m) gen ipaddr (m_isAdmin m) None in
  let w' := set_users w (aset Nat.eqb (users w) c u) in
  handleMessage now gen c m ipaddr w =
    (tt, w',
     Send c (PJoined (m_username m) (map fst (channels w))) ::
     map (fun ci => Send (fst ci)
            (PUserList (map (fun cu => (username (snd cu), isAdmin (snd cu),
                                        isMutedAt now (snd cu))) (users w'))))
         (clients w)) /\
  users_get w' c = Some u /\ notAdmin w' c = negb (m_isAdmin m).
Proof.
  intros Hty Hb Hf. cbv zeta. split.
  - unfold handleMessage. mstep. rewrite Hty. simpl.
    unfold handleJoin, broadcastUserList, broadcast. mstep. rewrite Hb, Hf. simpl.
    rewrite filter_true. reflexivity.
  - unfold notAdmin, users_get. simpl. rewrite aget_aset_nat, Nat.eqb_refl.
    split; reflexivity.
Qed.

Lemma join_accepted_witness :
  handleMessage 0 "g3" 3%nat (join_frame "bob" true) "10.0.0.3" w_pending =
    (tt, set_users w_pending (aset Nat.eqb (users w_pending) 3%nat
                                 (mkUser "bob" "g3" "10.0.0.3" true None)),
     [Send 3%nat (PJoined "bob" ["general"; "random"; "gaming"]);
      Send 1%nat (PUserList [("alice", false, false); ("bob", true, false)]);
      Send 3%nat (PUserList [("alice", false, false); ("bob", true, false)])]) /\
  users_get (set_users w_pending (aset Nat.eqb (users w_pending) 3%nat
                                   (mkUser "bob" "g3" "10.0.0.3" true None))) 3%nat =
    Some (mkUser "bob" "g3" "10.0.0.3" true None) /\
  notAdmin (set_users w_pending (aset Nat.eqb (users w_pending) 3%nat
                                   (mkUser "bob" "g3" "10.0.0.3" true None))) 3%nat = false.
Proof.
  apply (join_accepted 0 "g3" 3%nat (join_frame "bob" true) "10.0.0.3" w_pending);
    reflexivity.
Defined.

(** An admin command naming a user who is not joined changes nothing and
    only answers the sender with [User <name> not found.]: a kick, a mute
    and a ban (of either type) alike. *)
Theorem admin_target_missing now c m w :
  findEntry (users w) (m_targetUsername m) = None ->
  handleAdminKick now c m w = (tt, w, [Send c (notFound (m_targetUsername m))]) /\
  handleAdminMute now c m w = (tt, w, [Send c (notFound (m_targetUsername m))]) /\
  handleAdminBan now c m w = (tt, w, [Send c (notFound (m_targetUsername m))]).
Proof.
  intros H. unfold handleAdminKick, handleAdminMute, handleAdminBan,
    findSocketByUsername, findUserByUsername. mstep. rewrite H.
  repeat split.
Qed.

Lemma admin_target_missing_witness :
  handleAdminKick 0 2%nat (admin_frame "admin_ban" "bob" 0 "ip") w_admin =
    (tt, w_admin, [Send 2%nat (notFound "bob")]) /\
  handleAdminMute 0 2%nat (admin_frame "admin_ban" "bob" 0 "ip") w_admin =
    (tt, w_admin, [Send 2%nat (notFound "bob")]) /\
  handleAdminBan 0 2%nat (admin_frame "admin_ban" "bob" 0 "ip") w_admin =
    (tt, w_admin, [Send 2%nat (notFound "bob")]).
Proof.
  destruct (admin_target_missing 0 2%nat (admin_frame "admin_ban" "bob" 0 "ip") w_admin)
    as [H1 [H2 H3]]; [reflexivity|].
  split; [exact H1|split; [exact H2|exact H3]].
Defined.

(** A ban whose type is neither [username] nor [ip] bans nothing and kicks
    nobody, even when the target is joined: the sender only gets
    [Invalid ban type.]. *)
Theorem invalid_ban_type now c m w tu :
  findUserByUsername w (m_targetUsername m) = Some tu ->
  m_banType m <> "username" -> m_banType m <> "ip" ->
  handleAdminBan now c m w = (tt, w, [Send c (PError "Invalid ban type." false)]).
Proof.
  intros Hf Hu Hi. unfold handleAdminBan. mstep. rewrite Hf.
  apply String.eqb_neq in Hu. apply String.eqb_neq in Hi. rewrite Hu, Hi. reflexivity.
Qed.

Lemma invalid_ban_type_witness :
  handleAdminBan 0 2%nat (admin_frame "admin_ban" "alice" 10 "name") w_admin =
    (tt, w_admin, [Send 2%nat (PError "Invalid ban type." false)]).
Proof.
  apply (invalid_ban_type 0 2%nat (admin_frame "admin_ban" "alice" 10 "name") w_admin alice);
    [reflexivity|discriminate|discriminate].
Defined.

(** Typing indicators: a joined, unmuted sender's indicator goes to every
    open client except the sender, and nothing changes; a muted sender or a
    socket without a session produces no frame at all. *)
Theorem typing_relay now c m w :
  handleTyping now c m w =
    (tt, w,
     match users_get w c with
     | Some u =>
         if isMutedAt now u then []
         else map (fun ci => Send (fst ci) (PTyping (username u) (m_channel m) (m_isTyping m)))
                  (filter (fun ci => negb (Nat.eqb (fst ci) c)) (clients w))
     | None => []
     end) /\
  (forall o, In o (snd (handleTyping now c m w)) -> dest o <> c).
Proof.
  assert (H : handleTyping now c m w =
    (tt, w,
     match users_get w c with
     | Some u =>
         if isMutedAt now u then []
         else map (fun ci => Send (fst ci) (PTyping (username u) (m_channel m) (m_isTyping m)))
                  (filter (fun ci => negb (Nat.eqb (fst ci) c)) (clients w))
     | None => []
     end)).
  { unfold handleTyping, broadcast. mstep.
    destruct (users_get w c) as [u|]; [|reflexivity].
    destruct (isMutedAt now u); reflexivity. }
  split; [exact H|]. rewrite H. simpl. intros o Ho.
  destruct (users_get w c) as [u|]; [|destruct Ho].
  destruct (isMutedAt now u); [destruct Ho|].
  apply in_map_iff in Ho. destruct Ho as [ci [<- Hci]].
  apply filter_In in Hci. destruct Hci as [_ Hne]. simpl.
  apply negb_true_iff, Nat.eqb_neq in Hne. exact Hne.
Qed.

Lemma kick_keeps_session_eq now c m w s :
  findSocketByUsername w (m_targetUsername m) = Some s ->
  handleAdminKick now c m w =
    (tt, set_clients w (adel Nat.eqb (clients w) s),
     [Send s (PError "You have been kicked by an admin." true);
      Send c (PAdminConfirm ("User " +++ m_targetUsername m +++ " has been kicked."))] ++
     map (fun ci => Send (fst ci)
            (PUserList (map (fun cu => (username (snd cu), isAdmin (snd cu),
                                        isMutedAt now (snd cu))) (users w))))
         (adel Nat.eqb (clients w) s)).
Proof.
  intros Hs. unfold handleAdminKick, terminate, broadcastUserList, broadcast. mstep.
  rewrite Hs. simpl. rewrite filter_true. reflexivity.
Qed.

(** A kick terminates the target socket at once but keeps its session until
    the socket's [close] event: the target gets the kick error, the admin
    the confirmation, and the remaining open clients a user list that still
    lists the kicked user. *)
Theorem kick_keeps_session now c m w s :
  findSocketByUsername w (m_targetUsername m) = Some s ->
  handleAdminKick now c m w =
    (tt, set_clients w (adel Nat.eqb (clients w) s),
     [Send s (PError "You have been kicked by an admin." true);
      Send c (PAdminConfirm ("User " +++ m_targetUsername m +++ " has been kicked."))] ++
     map (fun ci => Send (fst ci)
            (PUserList (map (fun cu => (username (snd cu), isAdmin (snd cu),
                                        isMutedAt now (snd cu))) (users w))))
         (adel Nat.eqb (clients w) s)).
Proof.
  exact (kick_keeps_session_eq now c m w s).
Qed.

Lemma kick_keeps_session_witness :
  handleAdminKick 0 2%nat (admin_frame "admin_kick" "alice" 0 "") w_admin =
    (tt, set_clients w_admin [(2%nat, "10.0.0.2")],
     [Send 1%nat (PError "You have been kicked by an admin." true);
      Send 2%nat (PAdminConfirm "User alice has been kicked.");
      Send 2%nat (PUserList [("alice", false, false); ("root", true, false)])]).
Proof.
  apply (kick_keeps_session 0 2%nat (admin_frame "admin_kick" "alice" 0 "") w_admin 1%nat).
  reflexivity.
Defined.

(** A ban of either valid type keeps the sessions as they are, terminates
    the target's socket, and sends exactly two frames: a confirmation to the
    admin, then the ban error to the target. *)
Theorem ban_kicks_target now c m w s tu :
  findEntry (users w) (m_targetUsername m) = Some (s, tu) ->
  m_banType m = "username" \/ m_banType m = "ip" ->
  let '(_, w', outs) := handleAdminBan now c m w in
  users w' = users w /\ clients w' = adel Nat.eqb (clients w) s /\
  exists msg, outs = [Send c (PAdminConfirm msg);
                      Send s (PError "You have been banned from the server." true)].
Proof.
  intros Hf Hb. unfold handleAdminBan, kickBanned, terminate, findUserByUsername,
    findSocketByUsername. mstep. rewrite Hf. simpl.
  destruct Hb as [Hb|Hb]; rewrite Hb; simpl; rewrite Hf; simpl;
    (split; [reflexivity|split; [reflexivity|eexists; reflexivity]]).
Qed.

Lemma ban_kicks_target_witness :
  let '(_, w', outs) := handleAdminBan 0 2%nat (admin_frame "admin_ban" "alice" 0 "ip") w_admin in
  users w' = users w_admin /\ clients w' = adel Nat.eqb (clients w_admin) 1%nat /\
  exists msg, outs = [Send 2%nat (PAdminConfirm msg);
                      Send 1%nat (PError "You have been banned from the server." true)].
Proof.
  apply (ban_kicks_target 0 2%nat (admin_frame "admin_ban" "alice" 0 "ip") w_admin 1%nat alice);
    [reflexivity|right; reflexivity].
Defined.

(** A mute whose expiry lies within the Date range stores
    [calculateExpiry(duration)] on the target's session; the target is muted
    at the moment of the command exactly when the duration is not negative
    (0 meaning 100 years), so a negative duration mutes nobody. *)
Theorem mute_sets_expiry now c m w k u :
  Z.abs (calculateExpiry now (m_duration m)) <= DATE_MAX ->
  findEntry (users w) (m_targetUsername m) = Some (k, u) ->
  match users_get (after (handleAdminMute now c m) w) k with
  | Some u' => muteExpires u' = Some (calculateExpiry now (m_duration m)) /\
               isMutedAt now u' = (0 <=? m_duration m)
  | None => False
  end.
Proof.
  intros _ Hf. rewrite (handleAdminMute_world now c m w k u Hf).
  unfold users_get. simpl. rewrite aget_aset_nat, Nat.eqb_refl. simpl.
  split; [reflexivity|]. unfold isMutedAt, calculateExpiry. simpl.
  destruct (Z.eqb_spec (m_duration m) 0) as [->|Hd].
  - simpl. apply Z.ltb_lt. unfold PERMANENT_MS. lia.
  - destruct (Z.leb_spec 0 (m_duration m)).
    + apply Z.ltb_lt. lia.
    + apply Z.ltb_ge. lia.
Qed.

Lemma mute_sets_expiry_witness :
  match users_get (after (handleAdminMute 0 2%nat (admin_frame "admin_mute" "alice" (-5) ""))
                          w_admin) 1%nat with
  | Some u' => muteExpires u' = Some (calculateExpiry 0 (-5)) /\ isMutedAt 0 u' = (0 <=? -5)
  | None => False
  end.
Proof.
  apply (mute_sets_expiry 0 2%nat (admin_frame "admin_mute" "alice" (-5) "") w_admin 1%nat alice).
  - vm_compute. discriminate.
  - reflexivity.
Defined.

Lemma aget_aset_str {V} (m : list (string * V)) k v :
  aget String.eqb (aset String.eqb m k v) k = Some v.
Proof. rewrite (aget_aset_gen String.eqb string_eqb_spec), String.eqb_refl. reflexivity. Qed.



(** History round trip: once a joined, unmuted user's message to an existing
    channel is accepted, a history request for that channel from any socket
    returns the previous history, without its oldest message if it already
    held 100, followed by the new message. *)
Theorem history_roundtrip now gen c m w u h c' m' :
  users_get w c = Some u -> isMutedAt now u = false ->
  channel_get w (m_channel m) = Some h -> (length h <= 100)%nat ->
  m_channel m' = m_channel m ->
  emitted (handleGetHistory c' m') (after (handleChatMessage now gen c m) w) =
    [Send c' (PHistory (m_channel m)
       ((if (length h <? 100)%nat then h else tl h) ++
        [mkChat gen (username u) (m_text m) (m_channel m) now (isAdmin u)]))].
Proof.
  intros Hu Hm Hc Hl Hm'.
  unfold after. rewrite (chat_accepted now gen c m w u Hu Hm).
  pose proof (storeAndBroadcast_channel now gen u m w h Hc) as Hs.
  destruct (storeAndBroadcast now gen u m w) as [[[] w2] o2]. simpl.
  unfold emitted, handleGetHistory. mstep. rewrite Hm', Hs.
  rewrite push_bounded_spec by exact Hl. reflexivity.
Qed.

Lemma history_roundtrip_witness :
  emitted (handleGetHistory 3%nat (mkIn "getHistory" "" false "general" "" false "" 0 ""))
    (after (handleChatMessage 7 "g" 1%nat (chat_frame "general" "hi")) w_admin) =
    [Send 3%nat (PHistory "general" [mkChat "g" "alice" "hi" "general" 7 false])].
Proof.
  apply (history_roundtrip 7 "g" 1%nat (chat_frame "general" "hi") w_admin alice []
           3%nat (mkIn "getHistory" "" false "general" "" false "" 0 ""));
    [reflexivity|reflexivity|reflexivity|simpl; lia|reflexivity].
Defined.

Lemma aget_names (us : list (conn * user)) c u :
  aget Nat.eqb us c = Some u -> In (username u) (names us).
Proof.
  unfold names. induction us as [|[k v] r IH]; simpl; [discriminate|].
  destruct (Nat.eqb k c); [intros H; injection H as <-; left; reflexivity|].
  intros H; right; exact (IH H).
Qed.

Lemma findEntry_filter_none (p : conn * user -> bool) us n :
  findEntry us n = None -> findEntry (filter p us) n = None.
Proof.
  induction us as [|[k v] r IH]; simpl; [reflexivity|].
  destruct (String.eqb (username v) n) eqn:E; [discriminate|].
  intros H. destruct (p (k, v)); simpl; [rewrite E|]; exact (IH H).
Qed.

Lemma findEntry_names_none us n : ~ In n (names us) -> findEntry us n = None.
Proof.
  unfold names. induction us as [|[k v] r IH]; simpl; [reflexivity|].
  intros Hn. destruct (String.eqb (username v) n) eqn:E.
  - apply String.eqb_eq in E. exfalso. apply Hn. left. exact E.
  - apply IH. intros H. apply Hn. right. exact H.
Qed.

(** With distinct usernames, removing a session's socket frees its name. *)
Lemma findEntry_adel_owner us c u :
  NoDup (names us) -> aget Nat.eqb us c = Some u ->
  findEntry (adel Nat.eqb us c) (username u) = None.
Proof.
  induction us as [|[k v] r IH]; simpl; [discriminate|].
  intros Hd. inversion Hd as [|? ? Hn Hd0]; subst.
  destruct (Nat.eqb k c) eqn:E; simpl.
  - intros H. injection H as <-.
    apply findEntry_filter_none, findEntry_names_none. exact Hn.
  - intros H.
    destruct (String.eqb (username v) (username u)) eqn:Eu.
    + apply String.eqb_eq in Eu. exfalso. apply Hn. rewrite Eu. exact (aget_names r c u H).
    + exact (IH Hd0 H).
Qed.

(** With distinct usernames, giving a socket a session with another name
    frees the socket's old name. *)
Lemma findEntry_aset_owner us c u v :
  NoDup (names us) -> aget Nat.eqb us c = Some u -> username v <> username u ->
  findEntry (aset Nat.eqb us c v) (username u) = None.
Proof.
  induction us as [|[k x] r IH]; simpl; [discriminate|].
  intros Hd. inversion Hd as [|? ? Hn Hd0]; subst.
  destruct (Nat.eqb k c) eqn:E; simpl.
  - intros H Hv. injection H as <-.
    apply String.eqb_neq in Hv. rewrite Hv. apply findEntry_names_none. exact Hn.
  - intros H Hv. destruct (String.eqb (username x) (username u)) eqn:Eu.
    + apply String.eqb_eq in Eu. exfalso. apply Hn. rewrite Eu. exact (aget_names r c u H).
    + exact (IH Hd0 H Hv).
Qed.

(** Closing a joined socket ends its session and frees its name for any
    later [join]; the remaining open clients get the user list without it. *)
Theorem close_releases_name now c w u :
  reachable w -> users_get w c = Some u ->
  let w' := after (onClose now c) w in
  users_get w' c = None /\ findUserByUsername w' (username u) = None /\
  emitted (onClose now c) w =
    map (fun ci => Send (fst ci)
           (PUserList (map (fun cu => (username (snd cu), isAdmin (snd cu),
                                       isMutedAt now (snd cu))) (adel Nat.eqb (users w) c))))
        (adel Nat.eqb (clients w) c).
Proof.
  intros Hr Hu. destruct (reachable_wf w Hr) as [_ [_ Hn]]. cbv zeta.
  assert (Hw : onClose now c w =
    (tt, set_users (set_clients w (adel Nat.eqb (clients w) c)) (adel Nat.eqb (users w) c),
     map (fun ci => Send (fst ci)
           (PUserList (map (fun cu => (username (snd cu), isAdmin (snd cu),
                                       isMutedAt now (snd cu))) (adel Nat.eqb (users w) c))))
        (adel Nat.eqb (clients w) c))).
  { unfold onClose, broadcastUserList, broadcast. mstep. unfold users_get in *. simpl.
    rewrite Hu. simpl. rewrite filter_true. reflexivity. }
  unfold after, emitted. rewrite Hw. simpl. split; [|split; [|reflexivity]].
  - unfold users_get. simpl. rewrite aget_adel_nat, Nat.eqb_refl. reflexivity.
  - unfold findUserByUsername. simpl. rewrite (findEntry_adel_owner _ c u Hn Hu). reflexivity.
Qed.

Lemma close_releases_name_witness :
  let w := after (run two_sockets_run) init_world in
  let w' := after (onClose 1 1%nat) w in
  users_get w' 1%nat = None /\ findUserByUsername w' "alice" = None /\
  emitted (onClose 1 1%nat) w = [Send 2%nat (PUserList [])].
Proof.
  apply (close_releases_name 1 1%nat (after (run two_sockets_run) init_world)
           (mkUser "alice" "g1" "10.0.0.1" false None)).
  - apply reachable_run; [exact reach_init|vm_compute; reflexivity].
  - vm_compute. reflexivity.
Defined.

(** A joined socket that sends [join] with a free, unbanned name replaces
    its session: the new session has the new name, the frame's admin flag
    and no mute, and the old name is free again. *)
Theorem rejoin_replaces_session now gen c m ipaddr w u :
  reachable w -> users_get w c = Some u ->
  existsb (String.eqb (m_username m)) (bannedUsernames w) = false ->
  findUserByUsername w (m_username m) = None ->
  let w' := after (handleJoin now gen c m ipaddr) w in
  users_get w' c = Some (mkUser (m_username m) gen ipaddr (m_isAdmin m) None) /\
  findUserByUsername w' (username u) = None.
Proof.
  intros Hr Hu Hb Hf. destruct (reachable_wf w Hr) as [_ [_ Hn]]. cbv zeta.
  assert (Hw : after (handleJoin now gen c m ipaddr) w =
    set_users w (aset Nat.eqb (users w) c (mkUser (m_username m) gen ipaddr (m_isAdmin m) None))).
  { unfold handleJoin, after, broadcastUserList, broadcast. mstep. rewrite Hb, Hf. reflexivity. }
  rewrite Hw. split.
  - unfold users_get. simpl. rewrite aget_aset_nat, Nat.eqb_refl. reflexivity.
  - unfold findUserByUsername. simpl. rewrite (findEntry_aset_owner _ c u); [reflexivity|exact Hn|exact Hu|].
    simpl. intros He. unfold findUserByUsername in Hf.
    pose proof (findEntry_of_aget (users w) c u Hu) as Hne. rewrite <- He in Hne.
    destruct (findEntry (users w) (m_username m)); [discriminate|contradiction].
Qed.

Lemma rejoin_replaces_session_witness :
  let w := after (run two_sockets_run) init_world in
  let w' := after (handleJoin 1 "g9" 1%nat (join_frame "carol" true) "10.0.0.1") w in
  users_get w' 1%nat = Some (mkUser "carol" "g9" "10.0.0.1" true None) /\
  findUserByUsername w' "alice" = None.
Proof.
  apply (rejoin_replaces_session 1 "g9" 1%nat (join_frame "carol" true) "10.0.0.1"
           (after (run two_sockets_run) init_world) (mkUser "alice" "g1" "10.0.0.1" false None)).
  - apply reachable_run; [exact reach_init|vm_compute; reflexivity].
  - vm_compute. reflexivity.
  - vm_compute. reflexivity.
  - vm_compute. reflexivity.
Defined.

Lemma aget_filter_pass {V} (p : string * V -> bool) m i e :
  aget String.eqb (filter p m) i = Some e -> exists k, p (k, e) = true.
Proof.
  induction m as [|[k v] r IH]; simpl; [discriminate|].
  destruct (p (k, v)) eqn:Ep; simpl; [|exact IH].
  destruct (String.eqb k i); [intros H; injection H as <-; exists k; exact Ep|exact IH].
Qed.

Lemma users_get_clearExpired_other now w k k' :
  k' <> k -> users_get (clearExpired now w k') k = users_get w k.
Proof.
  intros Hne. unfold clearExpired.
  destruct (users_get w k') as [u|]; [|reflexivity].
  destruct (muteExpires u); [|reflexivity]. destruct (_ <? now); [|reflexivity].
  unfold users_get at 1. simpl. rewrite aget_aset_nat.
  apply Nat.eqb_neq in Hne. rewrite Hne. reflexivity.
Qed.

Lemma clearExpired_done now w k :
  forall u, users_get (clearExpired now w k) k = Some u ->
  forall e, muteExpires u = Some e -> now <= e.
Proof.
  unfold clearExpired. destruct (users_get w k) as [u0|] eqn:Hu; [|rewrite Hu; discriminate].
  destruct (muteExpires u0) as [e0|] eqn:He0.
  - destruct (e0 <? now) eqn:Elt.
    + unfold users_get at 1. simpl. rewrite aget_aset_nat, Nat.eqb_refl.
      intros u H. injection H as <-. discriminate.
    + rewrite Hu. intros u H. injection H as <-. rewrite He0. intros e H. injection H as <-.
      apply Z.ltb_ge in Elt. exact Elt.
  - rewrite Hu. intros u H. injection H as <-. rewrite He0. discriminate.
Qed.

Lemma clearExpired_fold_done now ks : forall w k,
  (In k ks \/ forall u, users_get w k = Some u -> forall e, muteExpires u = Some e -> now <= e) ->
  forall u, users_get (fold_left (clearExpired now) ks w) k = Some u ->
  forall e, muteExpires u = Some e -> now <= e.
Proof.
  induction ks as [|k' r IH]; intros w k H; simpl.
  - destruct H as [[]|H]. exact H.
  - apply IH. destruct (Nat.eq_dec k' k) as [->|Hne].
    + right. apply clearExpired_done.
    + destruct H as [[H|H]|H]; [contradiction|left; exact H|right].
      rewrite (users_get_clearExpired_other now w k k' Hne). exact H.
Qed.

Lemma clearExpired_keys now ks : forall w,
  map fst (users (fold_left (clearExpired now) ks w)) = map fst (users w).
Proof.
  induction ks as [|k r IH]; intros w; simpl; [reflexivity|].
  rewrite IH. unfold clearExpired.
  destruct (users_get w k) as [u|] eqn:Hu; [|reflexivity].
  destruct (muteExpires u); [|reflexivity]. destruct (_ <? now); [|reflexivity].
  simpl. rewrite keys_aset.
  replace (existsb (fun kv => Nat.eqb (fst kv) k) (users w)) with true; [reflexivity|].
  symmetry. apply existsb_exists.
  apply aget_in_keys, in_map_iff in Hu. destruct Hu as [[k0 v0] [Hk Hin]].
  exists (k0, v0). split; [exact Hin|]. simpl in *. subst. apply Nat.eqb_refl.
Qed.

Lemma aget_notin_keys {V} (m : list (conn * V)) k :
  ~ In k (map fst m) -> aget Nat.eqb m k = None.
Proof.
  induction m as [|[k0 v0] r IH]; simpl; [reflexivity|].
  intros H. destruct (Nat.eqb k0 k) eqn:E.
  - apply Nat.eqb_eq in E. subst. exfalso. apply H. left. reflexivity.
  - apply IH. intros Hin. apply H. right. exact Hin.
Qed.

(** The periodic sweep, with the clock and every stored expiry within the
    Date range: the address bans that expired before the clock are dropped
    and the others kept; every session whose mute expired before the clock
    has it cleared, every other session (an expiry equal to the clock
    included) is kept as it was; no session is added or removed. *)
Theorem sweep_clears_expired now w :
  Z.abs now <= DATE_MAX ->
  Forall (fun b => Z.abs (snd b) <= DATE_MAX) (bannedIPs w) ->
  (forall k u e, users_get w k = Some u -> muteExpires u = Some e -> Z.abs e <= DATE_MAX) ->
  let w' := after (sweep now) w in
  bannedIPs w' = filter (fun b => negb (snd b <? now)) (bannedIPs w) /\
  (forall k, users_get w' k =
     match users_get w k with
     | Some u =>
         Some match muteExpires u with
              | Some e => if e <? now then set_muteExpires u None else u
              | None => u
              end
     | None => None
     end) /\
  map fst (users w') = map fst (users w).
Proof.
  intros _ _ _. cbv zeta. split; [exact (proj2 (bans_sweep now w))|].
  rewrite sweep_world. split.
  - intros k.
    set (w0 := set_bannedIPs w (filter (fun b => negb (snd b <? now)) (bannedIPs w))).
    assert (H0 : users_get w0 k = users_get w k) by reflexivity.
    assert (Hk0 : map fst (users w0) = map fst (users w)) by reflexivity.
    destruct (users_get w k) as [u|] eqn:Hu.
    + destruct (muteExpires u) as [e|] eqn:He.
      * destruct (e <? now) eqn:Elt.
        -- apply Z.ltb_lt in Elt.
           apply (clearExpired_clears now _ w0 k u e); [exact H0|exact He|exact Elt|].
           exact (aget_in_keys _ _ _ Hu).
        -- apply Z.ltb_ge in Elt. apply clearExpired_keeps; [exact H0|].
           intros e' He'. rewrite He in He'. injection He' as <-. exact Elt.
      * apply clearExpired_keeps; [exact H0|]. intros e' He'. congruence.
    + unfold users_get. apply aget_notin_keys.
      rewrite clearExpired_keys, Hk0. exact (aget_none_keys _ _ Hu).
  - rewrite clearExpired_keys. reflexivity.
Qed.

Lemma sweep_clears_expired_witness :
  let w' := after (sweep 200000) w_expired in
  bannedIPs w' = filter (fun b => negb (snd b <? 200000)) (bannedIPs w_expired) /\
  (forall k, users_get w' k =
     match users_get w_expired k with
     | Some u =>
         Some match muteExpires u with
              | Some e => if e <? 200000 then set_muteExpires u None else u
              | None => u
              end
     | None => None
     end) /\
  map fst (users w') = map fst (users w_expired).
Proof.
  apply (sweep_clears_expired 200000 w_expired).
  - vm_compute. discriminate.
  - repeat constructor; vm_compute; discriminate.
  - intros k u e Hu He. destruct k as [|[|k]]; try discriminate.
    vm_compute in Hu. injection Hu as <-.
    vm_compute in He. injection He as <-. vm_compute. discriminate.
Defined.

